(** * The key store of crypto/keys/keybase.go

    A shallow embedding of [dbKeybase] and of its methods.  Go strings and
    byte slices are both sequences of bytes and the code converts freely
    between them, so both are [string] here.  Every method runs in a small
    state-and-error monad over the part of the world the methods touch: the
    key-value database held by the keybase, the standard input and output of
    the process, and the operating system's entropy source. *)

From Stdlib Require Import ZArith String Ascii List.
From stdpp Require Import base gmap strings list sorting.

(** ** Errors and results *)

(** The error values of keybase.go, one constructor per place that builds
    one.  [ErrForeign] carries an error produced by a collaborator (armor
    codec, derivation library, hardware device, record codec). *)
Inductive error : Type :=
| ErrUnsupportedSigningAlgo
| ErrUnsupportedLanguage
| ErrWords12or24 (got : nat)
| ErrWords12 (got : nat)
| ErrKeyNotFound (name : string)
| ErrPrivKeyNotAvailable
| ErrOnlyLocalPrivKeys
| ErrNoKeyToExport (name : string)
| ErrCannotOverwrite (name : string)
| ErrEnterYes
| ErrLocalKeyRequired
| io_EOF
| ErrForeign (msg : string).

(** A Go pair [(value, err)] returned by a function without effects. *)
Inductive result (A : Type) : Type :=
| Ok (a : A)
| Error (e : error).
Arguments Ok {A} a.
Arguments Error {A} e.

(** How a method call ends: it returns with [err == nil], it returns with an
    error, or a panic unwinds out of it. *)
Inductive outcome (A : Type) : Type :=
| Ret (a : A)
| Fail (e : error)
| Panic.
Arguments Ret {A} a.
Arguments Fail {A} e.
Arguments Panic {A}.

(** ** The database (tendermint/libs/db) *)

Module dbm.

(** The write primitives of [dbm.DB], recorded in call order. *)
Inductive call : Type :=
| CallSet (key value : string)
| CallSetSync (key value : string)
| CallDelete (key : string)
| CallDeleteSync (key : string).

(** Modelled from the spec: the persistent record store is not part of the
    sources.  Section 6 gives it [get], [set], [setDurable], [delete],
    [deleteDurable] and an iteration in ascending key order.  [cells] is
    the content, [journal] the write primitives called so far. *)
Record DB : Type := mkDB {
  cells : gmap string string;
  journal : list call
}.

Definition empty : DB := mkDB ∅ [].

(** [None] is Go's nil slice, returned for a key that is absent. *)
Definition Get (d : DB) (key : string) : option string := cells d !! key.

Definition Set' (d : DB) (key value : string) : DB :=
  mkDB (<[key := value]> (cells d)) (journal d ++ [CallSet key value]).

Definition SetSync (d : DB) (key value : string) : DB :=
  mkDB (<[key := value]> (cells d)) (journal d ++ [CallSetSync key value]).

Definition Delete (d : DB) (key : string) : DB :=
  mkDB (delete key (cells d)) (journal d ++ [CallDelete key]).

Definition DeleteSync (d : DB) (key : string) : DB :=
  mkDB (delete key (cells d)) (journal d ++ [CallDeleteSync key]).

(** Byte-wise lexicographic order on keys (Go's [bytes.Compare]). *)
Definition key_le (a b : string * string) : Prop :=
  Is_true (String.leb a.1 b.1).

#[export] Instance key_le_dec a b : Decision (key_le a b).
Proof. unfold key_le. apply _. Defined.

(** [Iterator(nil, nil)]: every entry, in ascending key order. *)
Definition Iterator (d : DB) : list (string * string) :=
  merge_sort key_le (map_to_list (cells d)).

Definition durable (c : call) : bool :=
  match c with
  | CallSetSync _ _ | CallDeleteSync _ => true
  | CallSet _ _ | CallDelete _ => false
  end.

End dbm.

(** ** The world of a method call *)

Record World : Type := mkWorld {
  db : dbm.DB;       (* kb.db *)
  stdin : string;    (* the bytes still to come on os.Stdin *)
  stdout : string;   (* the bytes printed so far *)
  draws : nat        (* how often the entropy source has been read *)
}.

Definition set_db (d : dbm.DB) (w : World) : World :=
  mkWorld d (stdin w) (stdout w) (draws w).

Definition Go (A : Type) : Type := World -> outcome A * World.

Definition ret {A} (a : A) : Go A := fun w => (Ret a, w).
Definition fail {A} (e : error) : Go A := fun w => (Fail e, w).
Definition panic {A} : Go A := fun w => (Panic, w).

Definition bind {A B} (m : Go A) (k : A -> Go B) : Go B :=
  fun w =>
    match m w with
    | (Ret a, w') => k a w'
    | (Fail e, w') => (Fail e, w')
    | (Panic, w') => (Panic, w')
    end.

Definition lift {A} (r : result A) : Go A :=
  match r with
  | Ok a => ret a
  | Error e => fail e
  end.

Declare Scope go_scope.
Delimit Scope go_scope with go.
Notation "x <- m ;; k" := (bind m (fun x => k))
  (at level 100, m at next level, right associativity) : go_scope.
Notation "m ;;; k" := (bind m (fun _ => k))
  (at level 100, right associativity) : go_scope.

(** World primitives. *)
Definition db_Get (key : string) : Go (option string) :=
  fun w => (Ret (dbm.Get (db w) key), w).
Definition db_Set (key value : string) : Go unit :=
  fun w => (Ret tt, set_db (dbm.Set' (db w) key value) w).
Definition db_SetSync (key value : string) : Go unit :=
  fun w => (Ret tt, set_db (dbm.SetSync (db w) key value) w).
Definition db_DeleteSync (key : string) : Go unit :=
  fun w => (Ret tt, set_db (dbm.DeleteSync (db w) key) w).
Definition db_Iterator : Go (list (string * string)) :=
  fun w => (Ret (dbm.Iterator (db w)), w).

(** [fmt.Printf] of a string that is already formatted. *)
Definition Printf (s : string) : Go unit :=
  fun w => (Ret tt, mkWorld (db w) (stdin w) (stdout w +:+ s) (draws w)).

(** One read of the entropy source; the number returned tells the reads apart. *)
Definition draw : Go nat :=
  fun w => (Ret (draws w), mkWorld (db w) (stdin w) (stdout w) (S (draws w))).

(** The line a [bufio.Reader.ReadString(delim)] returns on an input that
    holds [s] before its end: the bytes up to and including the first
    [delim], and what follows; [None] when the input ends before a [delim]
    is seen. *)
Fixpoint read_until (delim : ascii) (s : string) : option (string * string) :=
  match s with
  | EmptyString => None
  | String c s' =>
      if Ascii.eqb c delim then Some (String c EmptyString, s')
      else match read_until delim s' with
           | Some (line, rest) => Some (String c line, rest)
           | None => None
           end
  end.

(** [s] without its first [n] bytes. *)
Fixpoint skip (n : nat) (s : string) : string :=
  match n, s with
  | O, _ => s
  | S _, EmptyString => EmptyString
  | S n', String _ s' => skip n' s'
  end.

(** [bufio.NewReader(os.Stdin)] followed by one [ReadString(delim)], the
    reader then being dropped.  The reader fills its buffer with whatever
    the operating system hands it, so with the line it may take from the
    standard input some of the bytes that follow; these are lost with the
    reader.  [ahead] tells, for the bytes that follow the line, how many of
    them the reader took.  When the input ends before a [delim], all of it
    is taken and the error is [io.EOF]. *)
Definition ReadString (ahead : string -> nat) (delim : ascii) : Go string :=
  fun w =>
    match read_until delim (stdin w) with
    | Some (line, rest) =>
        (Ret line, mkWorld (db w) (skip (ahead rest) rest) (stdout w) (draws w))
    | None => (Fail io_EOF, mkWorld (db w) EmptyString (stdout w) (draws w))
    end.

(** ** Strings *)

(** [strings.Split(s, sep)] for a separator of one byte, the only use the
    key store makes of it: the pieces between the separators, one more piece
    than there are separators. *)
Fixpoint Split_from (sep : ascii) (piece : string) (s : string) : list string :=
  match s with
  | EmptyString => [piece]
  | String c s' =>
      if Ascii.eqb c sep then piece :: Split_from sep EmptyString s'
      else Split_from sep (piece +:+ String c EmptyString) s'
  end.

Definition Split (s : string) (sep : ascii) : list string :=
  Split_from sep EmptyString s.

(** The number of bytes of [s] that are [sep]. *)
Fixpoint count_sep (sep : ascii) (s : string) : nat :=
  match s with
  | EmptyString => 0
  | String c s' => (if Ascii.eqb c sep then 1 else 0) + count_sep sep s'
  end.

(** [strings.Join(a, sep)]. *)
Fixpoint Join (a : list string) (sep : string) : string :=
  match a with
  | [] => EmptyString
  | [x] => x
  | x :: rest => x +:+ sep +:+ Join rest sep
  end.

(** [infoKey]: the database key of a name. *)
Definition infoKey (name : string) : string := name +:+ ".info".

(** ** Key types and records *)

(** The types of tendermint/crypto and of the packages [crypto] and [hd]
    that the key store handles without looking inside, and the two constants
    it compares against or passes on. *)
Class KeyTypes : Type := {
  PubKey : Type;
  PrivKey : Type;
  Signature : Type;
  DerivationPath : Type;
  BIP44Params : Type;
  SigningAlgo : Type;
  SigningAlgo_eq_dec :: EqDecision SigningAlgo;
  Secp256k1 : SigningAlgo;
  hd_FullFundraiserPath : string
}.

(** [Language] is a Go [int]; [English] is [iota + 1]. *)
Definition Language : Type := Z.
Definition English : Language := 1%Z.
Definition Japanese : Language := 2%Z.
Definition Korean : Language := 3%Z.
Definition Spanish : Language := 4%Z.
Definition ChineseSimplified : Language := 5%Z.
Definition ChineseTraditional : Language := 6%Z.
Definition French : Language := 7%Z.
Definition Italian : Language := 8%Z.

Section Records.
Context `{KT : KeyTypes}.

(** Modelled from the spec: the declaration of the record type is not part
    of the sources.  Section 3 gives a record a name, a public key and one
    of three variants: Local with the armored encrypted private key,
    Hardware with a derivation path, WatchOnly with nothing more.  The
    constructors carry the arguments of [newLocalInfo], [newLedgerInfo] and
    [newOfflineInfo] in keybase.go. *)
Inductive Info : Type :=
| localInfo (Name : string) (pub : PubKey) (PrivKeyArmor : string)
| ledgerInfo (Name : string) (pub : PubKey) (Path : DerivationPath)
| offlineInfo (Name : string) (pub : PubKey).

Definition GetName (i : Info) : string :=
  match i with
  | localInfo n _ _ | ledgerInfo n _ _ | offlineInfo n _ => n
  end.

Definition GetPubKey (i : Info) : PubKey :=
  match i with
  | localInfo _ p _ | ledgerInfo _ p _ | offlineInfo _ p => p
  end.

(** What [cdc.UnmarshalBinary(bz, ptr)] is handed as [ptr], an
    [interface{}]: the nil interface, or a pointer to a variable of type
    [Signature] of the caller. *)
Inductive target : Type :=
| nilTarget
| sigTarget.

(** How [cdc.UnmarshalBinary] ends: with a panic, with an error, or with a
    decoded signature that it has stored through [ptr]. *)
Inductive decoded : Type :=
| DecPanic
| DecError (e : error)
| DecStored (s : Signature).

End Records.

(** The functions the key store calls and that are defined elsewhere: in the
    packages bip39, hd, crypto and tendermint/crypto, in go-amino, and in the
    files of package keys that hold the armor codec and the record codec.
    The functions that draw fresh randomness take the number of the draw. *)
Class Collaborators `{KT : KeyTypes} : Type := {
  (* bip39 *)
  bip39_NewMnemonic : nat -> result (list string);
  bip39_MnemonicToSeed : string -> string;
  bip39_MnemonicToSeedWithErrChecking : string -> result string;
  (* hd *)
  hd_ComputeMastersFromSeed : string -> string * string;
  hd_DerivePrivateKeyForPath : string -> string -> string -> result string;
  BIP44Params_String : BIP44Params -> string;
  (* tendermint/crypto and crypto *)
  PrivKeySecp256k1 : string -> PrivKey;
  priv_PubKey : PrivKey -> PubKey;
  priv_Sign : PrivKey -> string -> result Signature;
  pub_Bytes : PubKey -> string;
  PubKeyFromBytes : string -> result PubKey;
  NewPrivKeyLedgerSecp256k1 : DerivationPath -> result PrivKey;
  (* armor codec of package keys *)
  encryptArmorPrivKey : nat -> PrivKey -> string -> string;
  unarmorDecryptPrivKey : string -> string -> result PrivKey;
  armorInfoBytes : string -> string;
  unarmorInfoBytes : string -> result string;
  armorPubKeyBytes : string -> string;
  unarmorPubKeyBytes : string -> result string;
  (* record codec of package keys *)
  writeInfo : Info -> string;
  readInfo : string -> result Info;
  (* go-amino *)
  cdc_UnmarshalBinary : string -> target -> decoded;
  (* the operating system: of the bytes that follow a line on the standard
     input, how many a buffered reader takes along with the line *)
  stdin_read_ahead : string -> nat
}.

(** ** The methods of dbKeybase *)

Section Keybase.
Context `{C : Collaborators}.
Local Open Scope go_scope.

(** [cdc.MustUnmarshalBinary(bz, ptr)] of go-amino: [UnmarshalBinary], with
    an error turned into a panic.  The value returned is the content,
    after the call, of the caller's variable [v]: what was decoded when
    [ptr] points to [v], and [v] as it was when [ptr] does not. *)
Definition cdc_MustUnmarshalBinary (bz : string) (ptr : target)
    (v : option Signature) : Go (option Signature) :=
  match cdc_UnmarshalBinary bz ptr with
  | DecPanic => panic
  | DecError _ => panic
  | DecStored s =>
      match ptr with
      | sigTarget => ret (Some s)
      | nilTarget => ret v
      end
  end.

(** The method [writeInfo] of the keybase (the function of the same name
    is the record codec). *)
Definition kb_writeInfo (info : Info) (name : string) : Go unit :=
  db_SetSync (infoKey name) (writeInfo info).

Definition writeLocalKey (priv : PrivKey) (name passphrase : string) : Go Info :=
  n <- draw ;;
  let privArmor := encryptArmorPrivKey n priv passphrase in
  let pub := priv_PubKey priv in
  let info := localInfo name pub privArmor in
  kb_writeInfo info name ;;;
  ret info.

Definition writeLedgerKey (pub : PubKey) (path : DerivationPath)
    (name : string) : Go Info :=
  let info := ledgerInfo name pub path in
  kb_writeInfo info name ;;;
  ret info.

Definition writeOfflineKey (pub : PubKey) (name : string) : Go Info :=
  let info := offlineInfo name pub in
  kb_writeInfo info name ;;;
  ret info.

Definition persistDerivedKey (seed passwd name fullHdPath : string) : Go Info :=
  let '(masterPriv, ch) := hd_ComputeMastersFromSeed seed in
  derivedPriv <- lift (hd_DerivePrivateKeyForPath masterPriv ch fullHdPath) ;;
  if decide (passwd <> EmptyString) then
    writeLocalKey (PrivKeySecp256k1 derivedPriv) name passwd
  else
    let pubk := priv_PubKey (PrivKeySecp256k1 derivedPriv) in
    writeOfflineKey pubk name.

Definition CreateMnemonic (name : string) (language : Language)
    (passwd : string) (algo : SigningAlgo) : Go (Info * string) :=
  if decide (language <> English) then fail ErrUnsupportedLanguage
  else if decide (algo <> Secp256k1) then fail ErrUnsupportedSigningAlgo
  else
    n <- draw ;;
    mnemonicS <- lift (bip39_NewMnemonic n) ;;
    let mnemonic := Join mnemonicS " " in
    let seed := bip39_MnemonicToSeed mnemonic in
    info <- persistDerivedKey seed passwd name hd_FullFundraiserPath ;;
    ret (info, mnemonic).

Definition CreateKey (name mnemonic passwd : string) : Go Info :=
  let words := Split mnemonic " "%char in
  if decide (length words <> 12 /\ length words <> 24) then
    fail (ErrWords12or24 (length words))
  else
    seed <- lift (bip39_MnemonicToSeedWithErrChecking mnemonic) ;;
    persistDerivedKey seed passwd name hd_FullFundraiserPath.

Definition CreateFundraiserKey (name mnemonic passwd : string) : Go Info :=
  let words := Split mnemonic " "%char in
  if decide (length words <> 12) then
    fail (ErrWords12 (length words))
  else
    seed <- lift (bip39_MnemonicToSeedWithErrChecking mnemonic) ;;
    persistDerivedKey seed passwd name hd_FullFundraiserPath.

Definition Derive (name mnemonic passwd : string) (params : BIP44Params) : Go Info :=
  seed <- lift (bip39_MnemonicToSeedWithErrChecking mnemonic) ;;
  persistDerivedKey seed passwd name (BIP44Params_String params).

Definition CreateLedger (name : string) (path : DerivationPath)
    (algo : SigningAlgo) : Go Info :=
  if decide (algo <> Secp256k1) then fail ErrUnsupportedSigningAlgo
  else
    priv <- lift (NewPrivKeyLedgerSecp256k1 path) ;;
    let pub := priv_PubKey priv in
    writeLedgerKey pub path name.

Definition CreateOffline (name : string) (pub : PubKey) : Go Info :=
  writeOfflineKey pub name.

(** The loop of [List] over the entries the iterator yields. *)
Fixpoint List_loop (entries : list (string * string)) (res : list Info)
    : result (list Info) :=
  match entries with
  | [] => Ok res
  | (_, value) :: rest =>
      match readInfo value with
      | Error e => Error e
      | Ok info => List_loop rest (res ++ [info])
      end
  end.

Definition List : Go (list Info) :=
  entries <- db_Iterator ;;
  lift (List_loop entries []).

Definition Get (name : string) : Go Info :=
  bs <- db_Get (infoKey name) ;;
  match bs with
  | None | Some EmptyString => fail (ErrKeyNotFound name)
  | Some bz => lift (readInfo bz)
  end.

(** [Sign].  The result [sig] is an interface value, [None] when nil. *)
Definition Sign (name passphrase msg : string)
    : Go (option Signature * PubKey) :=
  info <- Get name ;;
  let sig : option Signature := None in
  let finish (priv : PrivKey) : Go (option Signature * PubKey) :=
    s <- lift (priv_Sign priv msg) ;;
    ret (Some s, priv_PubKey priv) in
  match info with
  | localInfo _ _ PrivKeyArmor =>
      if decide (PrivKeyArmor = EmptyString) then fail ErrPrivKeyNotAvailable
      else
        priv <- lift (unarmorDecryptPrivKey PrivKeyArmor passphrase) ;;
        finish priv
  | ledgerInfo _ _ Path =>
      priv <- lift (NewPrivKeyLedgerSecp256k1 Path) ;;
      finish priv
  | offlineInfo _ _ =>
      Printf ("Bytes to sign:" +:+ String "010" msg) ;;;
      Printf (String "010" "Enter Amino-encoded signature:" +:+ String "010" "") ;;;
      signed <- ReadString stdin_read_ahead "010"%char ;;
      sig' <- cdc_MustUnmarshalBinary signed nilTarget sig ;;
      ret (sig', GetPubKey info)
  end.

Definition ExportPrivateKeyObject (name passphrase : string) : Go PrivKey :=
  info <- Get name ;;
  match info with
  | localInfo _ _ PrivKeyArmor =>
      if decide (PrivKeyArmor = EmptyString) then fail ErrPrivKeyNotAvailable
      else lift (unarmorDecryptPrivKey PrivKeyArmor passphrase)
  | ledgerInfo _ _ _ => fail ErrOnlyLocalPrivKeys
  | offlineInfo _ _ => fail ErrOnlyLocalPrivKeys
  end.

Definition Export (name : string) : Go string :=
  bz <- db_Get (infoKey name) ;;
  match bz with
  | None => fail (ErrNoKeyToExport name)
  | Some bz => ret (armorInfoBytes bz)
  end.

Definition ExportPubKey (name : string) : Go string :=
  bz <- db_Get (infoKey name) ;;
  match bz with
  | None => fail (ErrNoKeyToExport name)
  | Some bz =>
      info <- lift (readInfo bz) ;;
      ret (armorPubKeyBytes (pub_Bytes (GetPubKey info)))
  end.

Definition Import (name armor : string) : Go unit :=
  bz <- db_Get (infoKey name) ;;
  match bz with
  | Some (String _ _) => fail (ErrCannotOverwrite name)
  | _ =>
      infoBytes <- lift (unarmorInfoBytes armor) ;;
      db_Set (infoKey name) infoBytes
  end.

Definition ImportPubKey (name armor : string) : Go unit :=
  bz <- db_Get (infoKey name) ;;
  match bz with
  | Some (String _ _) => fail (ErrCannotOverwrite name)
  | _ =>
      pubBytes <- lift (unarmorPubKeyBytes armor) ;;
      pubKey <- lift (PubKeyFromBytes pubBytes) ;;
      writeOfflineKey pubKey name ;;;
      ret tt
  end.

Definition Delete (name passphrase : string) : Go unit :=
  info <- Get name ;;
  match info with
  | localInfo _ _ PrivKeyArmor =>
      lift (unarmorDecryptPrivKey PrivKeyArmor passphrase) ;;;
      db_DeleteSync (infoKey name)
  | ledgerInfo _ _ _ => ret tt
  | offlineInfo _ _ =>
      if decide (passphrase <> "yes") then fail ErrEnterYes
      else db_DeleteSync (infoKey name)
  end.

Definition Update (name oldpass : string) (getNewpass : Go string) : Go unit :=
  info <- Get name ;;
  match info with
  | localInfo _ _ PrivKeyArmor =>
      key <- lift (unarmorDecryptPrivKey PrivKeyArmor oldpass) ;;
      newpass <- getNewpass ;;
      writeLocalKey key name newpass ;;;
      ret tt
  | _ => fail ErrLocalKeyRequired
  end.

End Keybase.

(** ** Vocabulary of the properties *)

Section Vocabulary.
Context `{C : Collaborators}.
Local Open Scope go_scope.

(** The store holds the record [info] under [name]: [Get] returns it. *)
Definition stored (name : string) (info : Info) (w : World) : Prop :=
  fst (Get name w) = Ret info.

(** [name] is occupied: its key holds a value that is not empty. *)
Definition occupied (name : string) (w : World) : Prop :=
  exists c bz, dbm.Get (db w) (infoKey name) = Some (String c bz).

(** The write primitives of the database called between [w] and [w']. *)
Definition wrote (w w' : World) (cs : list dbm.call) : Prop :=
  dbm.journal (db w') = dbm.journal (db w) ++ cs.

(** The private key that [persistDerivedKey] derives from a seed along a
    path, before it decides how to store it. *)
Definition key_at (seed fullHdPath : string) : result PrivKey :=
  let '(masterPriv, ch) := hd_ComputeMastersFromSeed seed in
  match hd_DerivePrivateKeyForPath masterPriv ch fullHdPath with
  | Ok derivedPriv => Ok (PrivKeySecp256k1 derivedPriv)
  | Error e => Error e
  end.

(** The four ways to create a record from a mnemonic. *)
Inductive creation : Type :=
| ViaCreateMnemonic (language : Language) (algo : SigningAlgo)
| ViaCreateKey (mnemonic : string)
| ViaCreateFundraiserKey (mnemonic : string)
| ViaDerive (mnemonic : string) (params : BIP44Params).

Definition create (c : creation) (name passwd : string) : Go Info :=
  match c with
  | ViaCreateMnemonic language algo =>
      r <- CreateMnemonic name language passwd algo ;; ret (fst r)
  | ViaCreateKey mnemonic => CreateKey name mnemonic passwd
  | ViaCreateFundraiserKey mnemonic => CreateFundraiserKey name mnemonic passwd
  | ViaDerive mnemonic params => Derive name mnemonic passwd params
  end.

(** A call of one method of the [Keybase] interface. *)
Inductive request : Type :=
| ReqCreateMnemonic (name : string) (language : Language) (passwd : string)
    (algo : SigningAlgo)
| ReqCreateKey (name mnemonic passwd : string)
| ReqCreateFundraiserKey (name mnemonic passwd : string)
| ReqDerive (name mnemonic passwd : string) (params : BIP44Params)
| ReqCreateLedger (name : string) (path : DerivationPath) (algo : SigningAlgo)
| ReqCreateOffline (name : string) (pub : PubKey)
| ReqList
| ReqGet (name : string)
| ReqSign (name passphrase msg : string)
| ReqExportPrivateKeyObject (name passphrase : string)
| ReqExport (name : string)
| ReqExportPubKey (name : string)
| ReqImport (name armor : string)
| ReqImportPubKey (name armor : string)
| ReqDelete (name passphrase : string)
| ReqUpdate (name oldpass : string) (getNewpass : Go string).

Definition discard {A} (m : Go A) : Go unit := _ <- m ;; ret tt.

(** The call carried out, its value dropped. *)
Definition serve (r : request) : Go unit :=
  match r with
  | ReqCreateMnemonic name language passwd algo =>
      discard (CreateMnemonic name language passwd algo)
  | ReqCreateKey name mnemonic passwd => discard (CreateKey name mnemonic passwd)
  | ReqCreateFundraiserKey name mnemonic passwd =>
      discard (CreateFundraiserKey name mnemonic passwd)
  | ReqDerive name mnemonic passwd params =>
      discard (Derive name mnemonic passwd params)
  | ReqCreateLedger name path algo => discard (CreateLedger name path algo)
  | ReqCreateOffline name pub => discard (CreateOffline name pub)
  | ReqList => discard List
  | ReqGet name => discard (Get name)
  | ReqSign name passphrase msg => discard (Sign name passphrase msg)
  | ReqExportPrivateKeyObject name passphrase =>
      discard (ExportPrivateKeyObject name passphrase)
  | ReqExport name => discard (Export name)
  | ReqExportPubKey name => discard (ExportPubKey name)
  | ReqImport name armor => Import name armor
  | ReqImportPubKey name armor => ImportPubKey name armor
  | ReqDelete name passphrase => Delete name passphrase
  | ReqUpdate name oldpass getNewpass => Update name oldpass getNewpass
  end.

(** What a method may do to the database. *)
Inductive effect : Type :=
| Persists (name : string)   (* writes the record of [name] *)
| Imports (name : string)    (* writes bytes taken from an armor *)
| Removes (name : string)    (* deletes the record of [name] *)
| Reads.                     (* writes nothing *)

Definition effect_of (r : request) : effect :=
  match r with
  | ReqCreateMnemonic name _ _ _ | ReqCreateKey name _ _
  | ReqCreateFundraiserKey name _ _ | ReqDerive name _ _ _
  | ReqCreateLedger name _ _ | ReqCreateOffline name _
  | ReqImportPubKey name _ | ReqUpdate name _ _ => Persists name
  | ReqImport name _ => Imports name
  | ReqDelete name _ => Removes name
  | ReqList | ReqGet _ | ReqSign _ _ _ | ReqExportPrivateKeyObject _ _
  | ReqExport _ | ReqExportPubKey _ => Reads
  end.

(** The passphrase callback of [Update] is code of the caller; it is
    [quiet] when it leaves the database alone. *)
Definition quiet (r : request) : Prop :=
  match r with
  | ReqUpdate _ _ getNewpass => forall w, db (snd (getNewpass w)) = db w
  | _ => True
  end.

(** The names of a list of records ascend in byte-wise lexicographic
    order. *)
Definition names_ascending (infos : list Info) : Prop :=
  Sorted (fun a b => Is_true (String.leb (GetName a) (GetName b))) infos.

(** The name whose key a request may write, if it may write at all. *)
Definition own_name (r : request) : option string :=
  match effect_of r with
  | Persists name | Imports name | Removes name => Some name
  | Reads => None
  end.

(** The request leaves the console alone: it is neither [Sign], which
    prompts, nor an [Update] whose callback reads or prints. *)
Definition off_console (r : request) : Prop :=
  match r with
  | ReqSign _ _ _ => False
  | ReqUpdate _ _ getNewpass =>
      forall w, stdin (snd (getNewpass w)) = stdin w /\
                stdout (snd (getNewpass w)) = stdout w
  | _ => True
  end.

(** The record codec gives back the record [info] it has written. *)
Definition decodable (info : Info) : Prop :=
  writeInfo info <> EmptyString /\ readInfo (writeInfo info) = Ok info.

(** Every byte of [s] is above the byte '.', the first byte of the suffix
    of the keys: letters, digits and the underscore are, the space and the
    hyphen are not. *)
Fixpoint plain (s : string) : bool :=
  match s with
  | EmptyString => true
  | String c s' => Ascii.ltb "." c && plain s'
  end.

(** Every entry of the database that decodes sits under the key of the
    name the record carries, and that name is plain. *)
Definition well_named (w : World) : Prop :=
  forall key value info,
    dbm.cells (db w) !! key = Some value ->
    readInfo value = Ok info ->
    key = infoKey (GetName info) /\ plain (GetName info) = true.

(** What a creation derives the key from, read off the four methods: the
    seed, the path, and the world in which [persistDerivedKey] is then
    called.  [CreateMnemonic] asks for English and secp256k1, draws a fresh
    mnemonic and takes the fundraiser path; [CreateKey] asks for 12 or 24
    words, [CreateFundraiserKey] for 12, both on the fundraiser path;
    [Derive] takes the path of its parameters. *)
Inductive derives : creation -> World -> string -> string -> World -> Prop :=
| derives_CreateMnemonic (w : World) (ws : list string) :
    bip39_NewMnemonic (draws w) = Ok ws ->
    derives (ViaCreateMnemonic English Secp256k1) w
      (bip39_MnemonicToSeed (Join ws " ")) hd_FullFundraiserPath
      (mkWorld (db w) (stdin w) (stdout w) (S (draws w)))
| derives_CreateKey (w : World) (mnemonic seed : string) :
    length (Split mnemonic " ") = 12 \/ length (Split mnemonic " ") = 24 ->
    bip39_MnemonicToSeedWithErrChecking mnemonic = Ok seed ->
    derives (ViaCreateKey mnemonic) w seed hd_FullFundraiserPath w
| derives_CreateFundraiserKey (w : World) (mnemonic seed : string) :
    length (Split mnemonic " ") = 12 ->
    bip39_MnemonicToSeedWithErrChecking mnemonic = Ok seed ->
    derives (ViaCreateFundraiserKey mnemonic) w seed hd_FullFundraiserPath w
| derives_Derive (w : World) (mnemonic seed : string) (params : BIP44Params) :
    bip39_MnemonicToSeedWithErrChecking mnemonic = Ok seed ->
    derives (ViaDerive mnemonic params) w seed (BIP44Params_String params) w.

(** The record [persistDerivedKey] makes of a derived key: Local with the
    armor of the key under the passphrase, drawn with the entropy read
    number [n], when the passphrase is not empty, and WatchOnly with the
    public key alone when it is. *)
Definition record_of (passwd name : string) (priv : PrivKey) (n : nat) : Info :=
  if decide (passwd <> EmptyString)
  then localInfo name (priv_PubKey priv) (encryptArmorPrivKey n priv passwd)
  else offlineInfo name (priv_PubKey priv).

(** The passphrase is the one [Delete] asks for before it removes the
    record: one that decrypts the armor of a Local record, the word "yes"
    for a WatchOnly record; nothing removes a Hardware record. *)
Definition authorised (info : Info) (passphrase : string) : Prop :=
  match info with
  | localInfo _ _ armor =>
      exists priv, unarmorDecryptPrivKey armor passphrase = Ok priv
  | ledgerInfo _ _ _ => False
  | offlineInfo _ _ => passphrase = "yes"
  end.

End Vocabulary.

(** ** A test double for the collaborators

    Small stand-ins on which the methods can be run: keys and signatures are
    strings, the record codec writes a tag and the fields separated by bars,
    the armor codec puts the passphrase in front of the key, and the amino
    codec refuses empty input and a [ptr] that is no pointer, and the
    standard input is a pipe, from which a buffered reader takes all there
    is. *)
Module Fake.

#[local] Instance types : KeyTypes := {|
  PubKey := string;
  PrivKey := string;
  Signature := string;
  DerivationPath := string;
  BIP44Params := string;
  SigningAlgo := string;
  Secp256k1 := "secp256k1";
  hd_FullFundraiserPath := "44'/118'/0'/0/0"
|}.

Fixpoint strip_prefix (p s : string) : option string :=
  match p, s with
  | EmptyString, _ => Some s
  | String a p', String b s' => if Ascii.eqb a b then strip_prefix p' s' else None
  | String _ _, EmptyString => None
  end.

Definition strip (what : string) (p s : string) : result string :=
  match strip_prefix p s with
  | Some rest => Ok rest
  | None => Error (ErrForeign what)
  end.

Definition write (i : Info) : string :=
  match i with
  | localInfo n p a => "L|" +:+ n +:+ "|" +:+ p +:+ "|" +:+ a
  | ledgerInfo n p path => "H|" +:+ n +:+ "|" +:+ p +:+ "|" +:+ path
  | offlineInfo n p => "O|" +:+ n +:+ "|" +:+ p
  end.

Definition read (bz : string) : result Info :=
  match Split bz "|"%char with
  | [tag; n; p; x] =>
      if String.eqb tag "L" then Ok (localInfo n p x)
      else if String.eqb tag "H" then Ok (ledgerInfo n p x)
      else Error (ErrForeign "unknown record")
  | [tag; n; p] =>
      if String.eqb tag "O" then Ok (offlineInfo n p)
      else Error (ErrForeign "unknown record")
  | _ => Error (ErrForeign "unknown record")
  end.

Definition unmarshal (bz : string) (ptr : target) : decoded :=
  match bz, ptr with
  | EmptyString, _ => DecError (ErrForeign "cannot decode empty bytes")
  | _, nilTarget => DecPanic
  | _, sigTarget => DecStored bz
  end.

#[local] Instance collab : Collaborators := {|
  bip39_NewMnemonic := fun _ => Ok (repeat "zoo" 24);
  bip39_MnemonicToSeed := fun m => "seed:" +:+ m;
  bip39_MnemonicToSeedWithErrChecking := fun m => Ok ("seed:" +:+ m);
  hd_ComputeMastersFromSeed := fun seed => (seed, "chain");
  hd_DerivePrivateKeyForPath := fun priv ch path => Ok (priv +:+ "/" +:+ path);
  BIP44Params_String := fun p => p;
  PrivKeySecp256k1 := fun bz => bz;
  priv_PubKey := fun priv => "pub:" +:+ priv;
  priv_Sign := fun priv msg => Ok ("sig:" +:+ priv +:+ ":" +:+ msg);
  pub_Bytes := fun pub => pub;
  PubKeyFromBytes := fun bz => Ok bz;
  NewPrivKeyLedgerSecp256k1 := fun path => Ok ("ledger:" +:+ path);
  encryptArmorPrivKey := fun _ priv pass => pass +:+ "#" +:+ priv;
  unarmorDecryptPrivKey := fun armor pass =>
    strip "decryption failed" (pass +:+ "#") armor;
  armorInfoBytes := fun bz => "INFO:" +:+ bz;
  unarmorInfoBytes := strip "unrecognized armor" "INFO:";
  armorPubKeyBytes := fun bz => "PUB:" +:+ bz;
  unarmorPubKeyBytes := strip "unrecognized armor" "PUB:";
  writeInfo := write;
  readInfo := read;
  cdc_UnmarshalBinary := unmarshal;
  stdin_read_ahead := String.length
|}.

(** A world with an empty database, nothing printed, and [input] waiting
    on the standard input. *)
Definition world (input : string) : World := mkWorld dbm.empty input "" 0.

(** The world after a call, whatever the call returned. *)
Definition after {A} (m : Go A) (w : World) : World := snd (m w).

(** Three stores of one record each: a WatchOnly record "bob", a Local
    record "alice" under the passphrase "pw1", a Hardware record "nano". *)
Definition bob (input : string) : World :=
  after (CreateOffline "bob" "pk") (world input).

Definition alice : World :=
  after (CreateKey "alice" "a b c d e f g h i j k l" "pw1") (world "").

Definition nano : World :=
  after (CreateLedger "nano" "44/118/0/0/0" "secp256k1") (world "").

(** The records these stores hold. *)
Definition bob_info : Info := @offlineInfo types "bob" "pk".

Definition alice_key : string := "seed:a b c d e f g h i j k l/44'/118'/0'/0/0".

Definition alice_info : Info :=
  @localInfo types "alice" ("pub:" +:+ alice_key) ("pw1#" +:+ alice_key).

Definition nano_info : Info :=
  @ledgerInfo types "nano" "pub:ledger:44/118/0/0/0" "44/118/0/0/0".

(** A line typed on the standard input. *)
Definition line (s : string) : string := s +:+ String "010" "".

(** The store of "a" and "a-b", registered in this order. *)
Definition ab : World :=
  after (CreateOffline "a-b" "pk2") (after (CreateOffline "a" "pk1") (world "")).

(** A store into which content that is no record has been imported. *)
Definition junk : World :=
  after (Import "junk" "INFO:garbage") (world "").

(** A callback that returns the passphrase "pw2". *)
Definition pw2 : Go string := ret "pw2".

(** The store after the first call of [CreateMnemonic], and what the call
    returned. *)
Definition fresh : outcome (Info * string) * World :=
  CreateMnemonic "dave" English "pw" "secp256k1" (world "").

(** The mnemonic of the test generator, and the record made from it. *)
Definition zoo24 : string := Join (repeat "zoo" 24) " ".

Definition dave_key : string := "seed:" +:+ zoo24 +:+ "/44'/118'/0'/0/0".

Definition dave_info : Info :=
  @localInfo types "dave" ("pub:" +:+ dave_key) ("pw#" +:+ dave_key).

(** A store of two records with plain names, "bob" registered before
    "alice". *)
Definition two : World :=
  after (CreateOffline "alice" "pk2") (bob "").

(** The WatchOnly record that [Derive] makes of the mnemonic "a b c" along
    a path of its own under the empty passphrase. *)
Definition watch_info : Info :=
  @offlineInfo types "watch" "pub:seed:a b c/44'/118'/1'/0/0".

End Fake.

(** ** Properties of the methods *)

Section Properties.
Context `{C : Collaborators}.

Ltac run := unfold bind, lift, ret, fail, panic, db_Get, db_Set, db_SetSync,
  db_DeleteSync, db_Iterator, draw, Printf, ReadString; simpl.

(** [Get] only reads. *)
Lemma Get_world (name : string) (w : World) : snd (Get name w) = w.
Proof.
  unfold Get; run.
  destruct (dbm.Get (db w) (infoKey name)) as [[|c bz]|]; try reflexivity.
  destruct (readInfo (String c bz)); reflexivity.
Qed.

Lemma stored_Get (name : string) (info : Info) (w : World) :
  stored name info w -> Get name w = (Ret info, w).
Proof.
  intros H. rewrite (surjective_pairing (Get name w)), Get_world.
  unfold stored in H. now rewrite H.
Qed.

(** A record that [Get] returns sits under a key whose value is not empty. *)
Lemma stored_occupied (name : string) (info : Info) (w : World) :
  stored name info w -> occupied name w.
Proof.
  unfold stored, occupied, Get; run.
  destruct (dbm.Get (db w) (infoKey name)) as [[|c bz]|]; try discriminate.
  intros _. now exists c, bz.
Qed.

(** After [DeleteSync] of its key a name is no longer found. *)
Lemma Get_after_DeleteSync (name : string) (w : World) :
  fst (Get name (set_db (dbm.DeleteSync (db w) (infoKey name)) w))
  = Fail (ErrKeyNotFound name).
Proof.
  unfold Get; run. unfold dbm.Get; simpl.
  now rewrite lookup_delete_eq.
Qed.

(** C3: on a stored Local record, [Delete] with a passphrase that does not
    decrypt the armor returns the decryption error and changes nothing,
    and with a passphrase that decrypts it returns without error, having
    deleted the key of the name, which [Get] no longer finds; on a stored
    WatchOnly record, [Delete] does the same deletion when the passphrase
    is the string "yes", and with any other passphrase returns an error
    and changes nothing. *)
Theorem Delete_asks_for_authorization
    (name passphrase : string) (info : Info) (w : World) :
  stored name info w ->
  let w' := set_db (dbm.DeleteSync (db w) (infoKey name)) w in
  (forall n pub armor e, info = localInfo n pub armor ->
     unarmorDecryptPrivKey armor passphrase = Error e ->
     Delete name passphrase w = (Fail e, w)) /\
  (forall n pub armor priv, info = localInfo n pub armor ->
     unarmorDecryptPrivKey armor passphrase = Ok priv ->
     Delete name passphrase w = (Ret tt, w') /\
     fst (Get name w') = Fail (ErrKeyNotFound name)) /\
  (forall n pub, info = offlineInfo n pub ->
     passphrase = "yes" ->
     Delete name passphrase w = (Ret tt, w') /\
     fst (Get name w') = Fail (ErrKeyNotFound name)) /\
  (forall n pub, info = offlineInfo n pub ->
     passphrase <> "yes" ->
     Delete name passphrase w = (Fail ErrEnterYes, w)).
Proof.
  intros Hst w'. apply stored_Get in Hst.
  repeat split; intros; subst info;
    try apply Get_after_DeleteSync; unfold Delete, bind; rewrite Hst.
  - run. now rewrite H0.
  - run. now rewrite H0.
  - subst passphrase. now destruct (decide ("yes" <> "yes")).
  - now destruct (decide (passphrase <> "yes")).
Qed.

(** C4: on a stored Hardware record, [Delete] returns without error
    whatever the passphrase is, and the world, the database with it, is as
    it was. *)
Theorem Delete_ledger_changes_nothing
    (name passphrase n : string) (pub : PubKey) (path : DerivationPath)
    (w : World) :
  stored name (ledgerInfo n pub path) w ->
  Delete name passphrase w = (Ret tt, w).
Proof.
  intros Hst. apply stored_Get in Hst.
  unfold Delete, bind. now rewrite Hst.
Qed.

(** C6: [CreateMnemonic] with a language other than English returns
    [ErrUnsupportedLanguage], and with an algorithm other than secp256k1
    returns [ErrUnsupportedSigningAlgo] (the language is looked at first,
    so with both unsupported the error is the one of the language); in
    both cases the world is unchanged, so no record is written. *)
Theorem CreateMnemonic_unsupported
    (name passwd : string) (language : Language) (algo : SigningAlgo)
    (w : World) :
  (language <> English ->
     CreateMnemonic name language passwd algo w
     = (Fail ErrUnsupportedLanguage, w)) /\
  (algo <> Secp256k1 ->
     CreateMnemonic name language passwd algo w
     = (Fail (if decide (language = English) then ErrUnsupportedSigningAlgo
              else ErrUnsupportedLanguage), w)).
Proof.
  unfold CreateMnemonic. split; intros H.
  - now destruct (decide (language <> English)).
  - destruct (decide (language <> English)), (decide (language = English));
      try contradiction; try reflexivity.
    now destruct (decide (algo <> Secp256k1)).
Qed.

(** The number of pieces [Split] returns is one more than the number of
    separators in the string. *)
Lemma Split_from_length (sep : ascii) (s piece : string) :
  length (Split_from sep piece s) = S (count_sep sep s).
Proof.
  revert piece. induction s as [|c s IH]; intros piece; simpl.
  - reflexivity.
  - destruct (Ascii.eqb c sep); simpl; now rewrite IH.
Qed.

Lemma Split_length (s : string) (sep : ascii) :
  length (Split s sep) = S (count_sep sep s).
Proof. apply Split_from_length. Qed.

(** C7: when the mnemonic does not split on spaces into 12 or 24 pieces,
    [CreateKey] returns the error about the number of words, and when it
    does not split into 12 pieces [CreateFundraiserKey] does; in both
    cases the world is unchanged, so nothing is persisted. *)
Theorem mnemonic_length_is_checked
    (name mnemonic passwd : string) (w : World) :
  let words := Split mnemonic " "%char in
  length words <> 12 ->
  CreateFundraiserKey name mnemonic passwd w
  = (Fail (ErrWords12 (length words)), w) /\
  (length words <> 24 ->
   CreateKey name mnemonic passwd w
   = (Fail (ErrWords12or24 (length words)), w)).
Proof.
  intros words H12. unfold CreateFundraiserKey, CreateKey. fold words.
  split.
  - now destruct (decide (length words <> 12)).
  - intros H24.
    destruct (decide (length words <> 12 /\ length words <> 24)) as [|n];
      [reflexivity | exfalso; apply n; now split].
Qed.

(** C8: on a name that is occupied, [Import] and [ImportPubKey] return the
    error that refuses to overwrite, and the world, the record under the
    name with it, is unchanged. *)
Theorem Import_refuses_occupied_name (name armor : string) (w : World) :
  occupied name w ->
  Import name armor w = (Fail (ErrCannotOverwrite name), w) /\
  ImportPubKey name armor w = (Fail (ErrCannotOverwrite name), w).
Proof.
  intros (c & bz & H). unfold Import, ImportPubKey; run.
  now rewrite H.
Qed.

(** [persistDerivedKey], when it returns a record, has written that record
    under the key of the name with [SetSync]; the record is Local with the
    armor of the derived key under the passphrase when the passphrase is
    not empty, and WatchOnly with the public key alone when it is. *)
Lemma persistDerivedKey_record
    (seed passwd name path : string) (info : Info) (w w' : World) :
  persistDerivedKey seed passwd name path w = (Ret info, w') ->
  db w' = dbm.SetSync (db w) (infoKey name) (writeInfo info) /\
  exists priv, key_at seed path = Ok priv /\
    (passwd <> "" -> exists n,
       info = localInfo name (priv_PubKey priv)
                (encryptArmorPrivKey n priv passwd)) /\
    (passwd = "" -> info = offlineInfo name (priv_PubKey priv)).
Proof.
  unfold persistDerivedKey, key_at.
  destruct (hd_ComputeMastersFromSeed seed) as [masterPriv ch].
  unfold bind at 1.
  destruct (hd_DerivePrivateKeyForPath masterPriv ch path) as [d|e];
    simpl; [|discriminate].
  destruct (decide (passwd <> "")) as [Hne|Heq].
  - unfold writeLocalKey, kb_writeInfo; run.
    intros [= <- <-]. split; [reflexivity|].
    eexists; split; [reflexivity|]. split; [eauto | contradiction].
  - unfold writeOfflineKey, kb_writeInfo; run.
    intros [= <- <-]. split; [reflexivity|].
    eexists; split; [reflexivity|]. split; [contradiction | reflexivity].
Qed.

(** [persistDerivedKey] on a seed and a path from which a key derives:
    the record it returns and the world it leaves. *)
Lemma persistDerivedKey_exact
    (seed passwd name path : string) (priv : PrivKey) (w : World) :
  key_at seed path = Ok priv ->
  (passwd <> "" ->
   let info := localInfo name (priv_PubKey priv)
                 (encryptArmorPrivKey (draws w) priv passwd) in
   persistDerivedKey seed passwd name path w
   = (Ret info,
      mkWorld (dbm.SetSync (db w) (infoKey name) (writeInfo info))
        (stdin w) (stdout w) (S (draws w)))) /\
  (passwd = "" ->
   let info := offlineInfo name (priv_PubKey priv) in
   persistDerivedKey seed passwd name path w
   = (Ret info,
      mkWorld (dbm.SetSync (db w) (infoKey name) (writeInfo info))
        (stdin w) (stdout w) (draws w))).
Proof.
  unfold key_at, persistDerivedKey.
  destruct (hd_ComputeMastersFromSeed seed) as [masterPriv ch].
  destruct (hd_DerivePrivateKeyForPath masterPriv ch path) as [d|e];
    [|discriminate].
  intros [= <-].
  split; intros Hp; unfold bind at 1; simpl;
    destruct (decide (passwd <> "")); try contradiction; reflexivity.
Qed.

(** A creation that returns a record has derived the key of the record as
    [derives] says. *)
Lemma create_derives
    (c : creation) (name passwd : string) (info : Info) (w w' : World) :
  create c name passwd w = (Ret info, w') ->
  exists seed path w0 priv,
    derives c w seed path w0 /\ key_at seed path = Ok priv.
Proof.
  assert (step : forall seed path w0,
    persistDerivedKey seed passwd name path w0 = (Ret info, w') ->
    exists priv, key_at seed path = Ok priv).
  { intros seed path w0 H.
    apply persistDerivedKey_record in H as [_ (priv & Hk & _)].
    now exists priv. }
  destruct c as [language algo|mnemonic|mnemonic|mnemonic params];
    unfold create.
  - unfold CreateMnemonic.
    destruct (decide (language <> English)) as [|HE]; [discriminate|].
    destruct (decide (algo <> Secp256k1)) as [|HS]; [discriminate|].
    apply dec_stable in HE, HS. subst language algo.
    run. destruct (bip39_NewMnemonic (draws w)) as [ws|e] eqn:Ews;
      [|discriminate].
    simpl.
    destruct (persistDerivedKey _ passwd name hd_FullFundraiserPath _)
      as [[i| |] w1] eqn:E; try discriminate.
    intros [= <- <-]. destruct (step _ _ _ E) as [priv Hk].
    eexists _, _, _, priv. split; [|exact Hk]. now constructor.
  - unfold CreateKey.
    destruct (decide _) as [|Hn]; [discriminate|]. run.
    destruct (bip39_MnemonicToSeedWithErrChecking mnemonic) as [seed|e] eqn:Es;
      [|discriminate].
    simpl. intros H. destruct (step _ _ _ H) as [priv Hk].
    exists seed, hd_FullFundraiserPath, w, priv. split; [|exact Hk].
    constructor; [|exact Es].
    destruct (decide (length (Split mnemonic " ") = 12)); [now left|].
    destruct (decide (length (Split mnemonic " ") = 24)); [now right|].
    now destruct Hn.
  - unfold CreateFundraiserKey.
    destruct (decide _) as [|Hn]; [discriminate|]. run.
    destruct (bip39_MnemonicToSeedWithErrChecking mnemonic) as [seed|e] eqn:Es;
      [|discriminate].
    simpl. intros H. destruct (step _ _ _ H) as [priv Hk].
    exists seed, hd_FullFundraiserPath, w, priv. split; [|exact Hk].
    constructor; [|exact Es]. now apply dec_stable in Hn.
  - unfold Derive. run.
    destruct (bip39_MnemonicToSeedWithErrChecking mnemonic) as [seed|e] eqn:Es;
      [|discriminate].
    simpl. intros H. destruct (step _ _ _ H) as [priv Hk].
    exists seed, (BIP44Params_String params), w, priv. split; [|exact Hk].
    now constructor.
Qed.

(** A creation that gets as far as a seed from which the key derives
    returns the record of the key and has written it. *)
Lemma create_exact
    (c : creation) (name passwd : string) (w : World)
    (seed path : string) (w0 : World) (priv : PrivKey) :
  derives c w seed path w0 ->
  key_at seed path = Ok priv ->
  (passwd <> "" ->
   let info := localInfo name (priv_PubKey priv)
                 (encryptArmorPrivKey (draws w0) priv passwd) in
   create c name passwd w
   = (Ret info,
      mkWorld (dbm.SetSync (db w) (infoKey name) (writeInfo info))
        (stdin w) (stdout w) (S (draws w0)))) /\
  (passwd = "" ->
   let info := offlineInfo name (priv_PubKey priv) in
   create c name passwd w
   = (Ret info,
      mkWorld (dbm.SetSync (db w) (infoKey name) (writeInfo info))
        (stdin w) (stdout w) (draws w0))).
Proof.
  intros Hder Hkey.
  destruct (persistDerivedKey_exact seed passwd name path priv w0 Hkey)
    as [HL HO].
  destruct Hder as [w ws Hws|w mnemonic seed Hlen Hs|w mnemonic seed Hlen Hs
                   |w mnemonic seed params Hs]; unfold create.
  - unfold CreateMnemonic.
    destruct (decide (English <> English)) as [Hn|_]; [now destruct Hn|].
    destruct (decide (Secp256k1 <> Secp256k1)) as [Hn|_]; [now destruct Hn|].
    run. rewrite Hws. simpl.
    split; intros Hp; [rewrite (HL Hp) | rewrite (HO Hp)]; reflexivity.
  - unfold CreateKey.
    destruct (decide _) as [[H12 H24]|_]; [now destruct Hlen|].
    run. rewrite Hs. simpl. split; intros Hp; [exact (HL Hp) | exact (HO Hp)].
  - unfold CreateFundraiserKey.
    destruct (decide _) as [H12|_]; [now destruct H12|].
    run. rewrite Hs. simpl. split; intros Hp; [exact (HL Hp) | exact (HO Hp)].
  - unfold Derive. run. rewrite Hs. simpl.
    split; intros Hp; [exact (HL Hp) | exact (HO Hp)].
Qed.

(** C5: the record that [CreateMnemonic], [CreateKey], [CreateFundraiserKey]
    and [Derive] persist.  Whenever the method gets as far as a seed and
    the key derives from the seed along the path of the method (the
    fundraiser path, and for [Derive] the path of its parameters), the
    method returns without error and has written with [SetSync], under the
    key of the name, the record it returns: with a passphrase that is not
    empty the Local record of the name, the public key of the derived key
    and the armor of that key encrypted under the passphrase, and with the
    empty passphrase the WatchOnly record of the name and the public key of
    the derived key, nothing else.  And a method that returns a record has
    derived its key in this way, so these are the only records the four
    methods persist. *)
Theorem passphrase_decides_the_variant
    (c : creation) (name passwd : string) (w : World) :
  (forall seed path w0 priv,
     derives c w seed path w0 ->
     key_at seed path = Ok priv ->
     (passwd <> "" ->
      let info := localInfo name (priv_PubKey priv)
                    (encryptArmorPrivKey (draws w0) priv passwd) in
      create c name passwd w
      = (Ret info,
         mkWorld (dbm.SetSync (db w) (infoKey name) (writeInfo info))
           (stdin w) (stdout w) (S (draws w0)))) /\
     (passwd = "" ->
      let info := offlineInfo name (priv_PubKey priv) in
      create c name passwd w
      = (Ret info,
         mkWorld (dbm.SetSync (db w) (infoKey name) (writeInfo info))
           (stdin w) (stdout w) (draws w0)))) /\
  (forall info w',
     create c name passwd w = (Ret info, w') ->
     exists seed path w0 priv,
       derives c w seed path w0 /\ key_at seed path = Ok priv).
Proof.
  split.
  - intros seed path w0 priv. apply create_exact.
  - intros info w'. apply create_derives.
Qed.

(** Every branch of a method, one goal each. *)
Ltac branches :=
  repeat (simpl;
    match goal with
    | |- context [decide ?P] => destruct (decide P)
    | |- context [match ?x with _ => _ end] =>
        lazymatch x with
        | context [match _ with _ => _ end] => fail
        | _ => destruct x eqn:?
        end
    end).

Ltac journal_grows :=
  first
    [ exists []; split;
      [ unfold wrote; simpl; now rewrite app_nil_r | ]
    | eexists; split; [ unfold wrote; simpl; reflexivity | ] ];
  simpl;
  first
    [ reflexivity
    | left; eexists; split; reflexivity
    | left; split; reflexivity
    | right; split; [ reflexivity | discriminate ]
    | right; reflexivity ].

(** The write primitives a call makes, for every method: at most one,
    and of the kind that belongs to the method. *)
Lemma journal_shape (r : request) (w : World) :
  quiet r ->
  exists cs, wrote w (snd (serve r w)) cs /\
    match effect_of r with
    | Persists name =>
        (exists bz, cs = [dbm.CallSetSync (infoKey name) bz] /\
                    fst (serve r w) = Ret tt) \/
        (cs = [] /\ fst (serve r w) <> Ret tt)
    | Imports name =>
        (exists bz, cs = [dbm.CallSet (infoKey name) bz] /\
                    fst (serve r w) = Ret tt) \/
        (cs = [] /\ fst (serve r w) <> Ret tt)
    | Removes name =>
        (cs = [dbm.CallDeleteSync (infoKey name)] /\
         fst (serve r w) = Ret tt) \/
        cs = []
    | Reads => cs = []
    end.
Proof.
  intros Hq.
  destruct r; simpl in Hq |- *;
    unfold discard, CreateMnemonic, CreateKey, CreateFundraiserKey, Derive,
      CreateLedger, CreateOffline, persistDerivedKey, writeLocalKey,
      writeLedgerKey, writeOfflineKey, kb_writeInfo, List, Sign,
      ExportPrivateKeyObject, Export, ExportPubKey, Import, ImportPubKey,
      Delete, Update, Get, cdc_MustUnmarshalBinary; run.
  16: { (* Update: the callback runs between the read and the write *)
    destruct (dbm.Get (db w) (infoKey name)) as [[|c bz]|];
      [journal_grows | | journal_grows].
    destruct (readInfo (String c bz)) as [[n p a|n p d|n p]|e];
      simpl; [ | journal_grows ..].
    destruct (unarmorDecryptPrivKey a oldpass) as [key|e];
      simpl; [ | journal_grows].
    pose proof (Hq w) as Q.
    destruct (getNewpass w) as [[newpass|e|] w1]; simpl in Q |- *.
    - eexists; split; [unfold wrote; simpl; rewrite Q; reflexivity|].
      left; eexists; split; reflexivity.
    - exists []; split; [unfold wrote; rewrite Q; now rewrite app_nil_r|].
      right; split; [reflexivity|discriminate].
    - exists []; split; [unfold wrote; rewrite Q; now rewrite app_nil_r|].
      right; split; [reflexivity|discriminate]. }
  all: branches; journal_grows.
Qed.

(** C10: the write primitive each method calls.  The methods that persist
    a record call [SetSync], once, on the key of the name and with the
    bytes of the record: [CreateMnemonic], [CreateKey],
    [CreateFundraiserKey] and [Derive] with the record of the derived key,
    [CreateLedger] with the Hardware record, [CreateOffline] and
    [ImportPubKey] with the WatchOnly record, [Update] with the Local record
    under the new passphrase.  [Delete], given the passphrase it asks for,
    calls [DeleteSync] once on the key of the name.  [Import], on a free
    name and a well-formed armor, calls the plain [Set] once, on the key of
    the name and with the bytes of the armor.  And no method calls anything
    more: whatever the arguments, a call makes at most one write, a
    [SetSync] for the persisting methods, a [DeleteSync] for [Delete], a
    [Set] for [Import] alone, and none for the others. *)
Theorem writes_are_durable_except_in_Import :
  (forall c name passwd w seed path w0 priv,
     derives c w seed path w0 ->
     key_at seed path = Ok priv ->
     wrote w (snd (create c name passwd w))
       [dbm.CallSetSync (infoKey name)
          (writeInfo (record_of passwd name priv (draws w0)))]) /\
  (forall name path priv w,
     NewPrivKeyLedgerSecp256k1 path = Ok priv ->
     wrote w (snd (CreateLedger name path Secp256k1 w))
       [dbm.CallSetSync (infoKey name)
          (writeInfo (ledgerInfo name (priv_PubKey priv) path))]) /\
  (forall name pub w,
     wrote w (snd (CreateOffline name pub w))
       [dbm.CallSetSync (infoKey name) (writeInfo (offlineInfo name pub))]) /\
  (forall name armor pubBytes pub w,
     ~ occupied name w ->
     unarmorPubKeyBytes armor = Ok pubBytes ->
     PubKeyFromBytes pubBytes = Ok pub ->
     wrote w (snd (ImportPubKey name armor w))
       [dbm.CallSetSync (infoKey name) (writeInfo (offlineInfo name pub))]) /\
  (forall name oldpass getNewpass n pub armor key newpass w w1,
     stored name (localInfo n pub armor) w ->
     unarmorDecryptPrivKey armor oldpass = Ok key ->
     getNewpass w = (Ret newpass, w1) ->
     db w1 = db w ->
     wrote w (snd (Update name oldpass getNewpass w))
       [dbm.CallSetSync (infoKey name)
          (writeInfo (localInfo name (priv_PubKey key)
                        (encryptArmorPrivKey (draws w1) key newpass)))]) /\
  (forall name passphrase info w,
     stored name info w ->
     authorised info passphrase ->
     wrote w (snd (Delete name passphrase w))
       [dbm.CallDeleteSync (infoKey name)]) /\
  (forall name armor infoBytes w,
     ~ occupied name w ->
     unarmorInfoBytes armor = Ok infoBytes ->
     wrote w (snd (Import name armor w))
       [dbm.CallSet (infoKey name) infoBytes]) /\
  (forall r w,
     quiet r ->
     exists cs, wrote w (snd (serve r w)) cs /\
       match effect_of r with
       | Persists name =>
           (exists bz, cs = [dbm.CallSetSync (infoKey name) bz] /\
                       fst (serve r w) = Ret tt) \/
           (cs = [] /\ fst (serve r w) <> Ret tt)
       | Imports name =>
           (exists bz, cs = [dbm.CallSet (infoKey name) bz] /\
                       fst (serve r w) = Ret tt) \/
           (cs = [] /\ fst (serve r w) <> Ret tt)
       | Removes name =>
           (cs = [dbm.CallDeleteSync (infoKey name)] /\
            fst (serve r w) = Ret tt) \/
           cs = []
       | Reads => cs = []
       end).
Proof.
  repeat apply conj.
  - intros c name passwd w seed path w0 priv Hder Hkey.
    destruct (create_exact c name passwd w seed path w0 priv Hder Hkey)
      as [HL HO].
    unfold record_of.
    destruct (decide (passwd <> "")) as [Hp|Hp].
    + rewrite (HL Hp). reflexivity.
    + apply dec_stable in Hp. rewrite (HO Hp). reflexivity.
  - intros name path priv w Hdev. unfold CreateLedger.
    destruct (decide (Secp256k1 <> Secp256k1)) as [Hn|_]; [now destruct Hn|].
    unfold writeLedgerKey, kb_writeInfo; run. rewrite Hdev. reflexivity.
  - intros name pub w. reflexivity.
  - intros name armor pubBytes pub w Hfree Harmor Hkey.
    unfold ImportPubKey, writeOfflineKey, kb_writeInfo; run.
    destruct (dbm.Get (db w) (infoKey name)) as [[|c bz]|] eqn:E;
      try (exfalso; apply Hfree; now exists c, bz);
      rewrite Harmor; simpl; rewrite Hkey; reflexivity.
  - intros name oldpass getNewpass n pub armor key newpass w w1
      Hst Hdec Hcb Hdb.
    apply stored_Get in Hst. unfold Update, bind. rewrite Hst.
    run. rewrite Hdec. simpl. rewrite Hcb.
    unfold writeLocalKey, kb_writeInfo, wrote; run. now rewrite Hdb.
  - intros name passphrase info w Hst Hauth.
    apply stored_Get in Hst. unfold Delete, bind. rewrite Hst.
    destruct info as [n p armor|n p d|n p]; simpl in Hauth.
    + destruct Hauth as [priv Hdec]. run. rewrite Hdec. reflexivity.
    + contradiction.
    + subst passphrase.
      destruct (decide ("yes" <> "yes")) as [Hn|_]; [now destruct Hn|].
      reflexivity.
  - intros name armor infoBytes w Hfree Harmor.
    unfold Import; run.
    destruct (dbm.Get (db w) (infoKey name)) as [[|c bz]|] eqn:E;
      try (exfalso; apply Hfree; now exists c, bz);
      rewrite Harmor; reflexivity.
  - apply journal_shape.
Qed.

#[local] Instance key_le_total : Total dbm.key_le.
Proof.
  intros [k1 v1] [k2 v2]. unfold dbm.key_le. simpl.
  destruct (String.leb_total k1 k2) as [H|H]; rewrite H; simpl; auto.
Qed.

Lemma List_loop_reads (entries : list (string * string)) (res infos : list Info) :
  List_loop entries res = Ok infos ->
  exists more, infos = res ++ more /\
    Forall2 (fun e i => readInfo e.2 = Ok i) entries more.
Proof.
  revert res. induction entries as [|[k v] entries IH]; intros res; simpl.
  - intros [= <-]. exists []. split; [now rewrite app_nil_r | constructor].
  - destruct (readInfo v) as [i|e] eqn:E; [|discriminate].
    intros H. apply IH in H as (more & -> & F).
    exists (i :: more). split; [now rewrite <- app_assoc | now constructor].
Qed.

(** X23: what [List] does return: the records decoded from the entries of
    the database, one for one, in ascending order of the keys of the
    entries. *)
Lemma List_in_key_order (w : World) (infos : list Info) :
  fst (List w) = Ret infos ->
  Sorted dbm.key_le (dbm.Iterator (db w)) /\
  Forall2 (fun e i => readInfo e.2 = Ok i) (dbm.Iterator (db w)) infos.
Proof.
  unfold List; run. intros H. split.
  - apply Sorted_merge_sort; apply _.
  - destruct (List_loop (dbm.Iterator (db w)) []) as [l|e] eqn:E;
      [|discriminate].
    simpl in H. injection H as <-.
    now apply List_loop_reads in E as (more & -> & F).
Qed.

(** C9: in an empty store, after [CreateOffline] of the name "a" and then
    of the name "a-b", [List] returns the record of "a-b" before the record
    of "a", because the key "a-b.info" is below the key "a.info" (the byte
    '-' is below the byte '.'); the names of the list returned are not in
    ascending order. *)
Theorem List_orders_by_key_not_by_name (pk1 pk2 : PubKey) (w : World) :
  dbm.cells (db w) = ∅ ->
  readInfo (writeInfo (offlineInfo "a" pk1)) = Ok (offlineInfo "a" pk1) ->
  readInfo (writeInfo (offlineInfo "a-b" pk2)) = Ok (offlineInfo "a-b" pk2) ->
  let w2 := snd (CreateOffline "a-b" pk2 (snd (CreateOffline "a" pk1 w))) in
  fst (List w2) = Ret [offlineInfo "a-b" pk2; offlineInfo "a" pk1] /\
  ~ names_ascending [offlineInfo "a-b" pk2; offlineInfo "a" pk1] /\
  names_ascending [offlineInfo "a" pk1; offlineInfo "a-b" pk2].
Proof.
  intros Hempty R1 R2 w2. split; [|split].
  - unfold List; run. unfold dbm.Iterator. simpl. rewrite Hempty.
    replace (merge_sort dbm.key_le _)
      with [("a-b.info", writeInfo (offlineInfo "a-b" pk2));
            ("a.info", writeInfo (offlineInfo "a" pk1))]
      by (vm_compute; reflexivity).
    simpl. rewrite R2. simpl. rewrite R1. reflexivity.
  - intros H. inversion H as [|? ? _ Hd]. inversion Hd as [|? ? F].
    exact F.
  - repeat constructor.
Qed.

(** [Sign] on a stored WatchOnly record, after the two prompts: the line
    read from the standard input goes to [cdc.MustUnmarshalBinary] together
    with the value of [sig], which is the nil interface. *)
Lemma Sign_offline_unfolded
    (name passphrase msg n : string) (pub : PubKey) (w : World) :
  stored name (offlineInfo n pub) w ->
  fst (Sign name passphrase msg w) =
  match read_until "010" (stdin w) with
  | None => Fail io_EOF
  | Some (line, _) =>
      match cdc_UnmarshalBinary line nilTarget with
      | DecStored _ => Ret (None, pub)
      | _ => Panic
      end
  end.
Proof.
  intros Hst. apply stored_Get in Hst.
  unfold Sign, bind at 1. rewrite Hst.
  unfold cdc_MustUnmarshalBinary; run.
  destruct (read_until "010" (stdin w)) as [[line rest]|]; [|reflexivity].
  simpl. now destruct (cdc_UnmarshalBinary line nilTarget).
Qed.

(** C1: on a stored WatchOnly record [Sign] never returns the reply as the
    signature.  It ends in a panic, or with the end-of-input error, or it
    returns the nil signature with the public key of the record: [sig] is
    handed to the decoder by value, so nothing the decoder does reaches the
    [sig] that is returned. *)
Theorem Sign_offline_returns_no_signature
    (name passphrase msg n : string) (pub : PubKey) (w : World) :
  stored name (offlineInfo n pub) w ->
  (fst (Sign name passphrase msg w) = Panic \/
   fst (Sign name passphrase msg w) = Fail io_EOF \/
   fst (Sign name passphrase msg w) = Ret (None, pub)) /\
  forall (s : Signature) (pk : PubKey),
    fst (Sign name passphrase msg w) <> Ret (Some s, pk).
Proof.
  intros Hst. rewrite (Sign_offline_unfolded _ _ _ _ _ _ Hst).
  destruct (read_until "010" (stdin w)) as [[line rest]|].
  - destruct (cdc_UnmarshalBinary line nilTarget);
      (split; [auto | discriminate]).
  - split; [auto | discriminate].
Qed.

(** C2: on a stored WatchOnly record, when the line read from the standard
    input is one that the decoder does not accept, [Sign] ends in a panic:
    it returns neither a value nor an error. *)
Theorem Sign_offline_panics_on_rejected_reply
    (name passphrase msg n line rest : string) (pub : PubKey) (w : World) :
  stored name (offlineInfo n pub) w ->
  read_until "010" (stdin w) = Some (line, rest) ->
  (forall s, cdc_UnmarshalBinary line nilTarget <> DecStored s) ->
  fst (Sign name passphrase msg w) = Panic.
Proof.
  intros Hst Hline Hrej. rewrite (Sign_offline_unfolded _ _ _ _ _ _ Hst), Hline.
  destruct (cdc_UnmarshalBinary line nilTarget) as [|e|s]; try reflexivity.
  now destruct (Hrej s).
Qed.

(** ** Further properties of the methods *)

Lemma append_length (a s : string) :
  String.length (a +:+ s) = String.length a + String.length s.
Proof.
  induction a as [|c a IH]; [reflexivity|].
  change (S (String.length (a +:+ s)) = S (String.length a) + String.length s).
  now rewrite IH.
Qed.

Lemma append_inv_tail (a b s : string) : a +:+ s = b +:+ s -> a = b.
Proof.
  revert b. induction a as [|c a IH]; intros [|d b] H.
  - reflexivity.
  - apply (f_equal String.length) in H.
    rewrite !append_length in H. simpl in H. lia.
  - apply (f_equal String.length) in H.
    rewrite !append_length in H. simpl in H. lia.
  - change (String c (a +:+ s) = String d (b +:+ s)) in H.
    injection H as -> H. f_equal. now apply IH.
Qed.

(** X1: two names that have the same database key are the same name, so no
    two names share a cell of the store. *)
Theorem infoKey_inj (name name' : string) :
  infoKey name = infoKey name' -> name = name'.
Proof. apply append_inv_tail. Qed.

(** X2: a method changes no cell of the database other than the one of the
    name it is called with: the value under the key of every other name is
    after the call what it was before (the callback of [Update] being
    quiet). *)
Theorem other_names_are_untouched (r : request) (other : string) (w : World) :
  quiet r ->
  own_name r <> Some other ->
  dbm.Get (db (snd (serve r w))) (infoKey other)
  = dbm.Get (db w) (infoKey other).
Proof.
  intros Hq Hn.
  assert (K : forall name, Some name <> Some other ->
                infoKey name <> infoKey other).
  { intros name H E. apply H. f_equal. now apply append_inv_tail with ".info". }
  revert Hn K.
  destruct r; unfold own_name; simpl in Hq |- *; intros Hn K;
    try specialize (K _ Hn);
    unfold discard, CreateMnemonic, CreateKey, CreateFundraiserKey, Derive,
      CreateLedger, CreateOffline, persistDerivedKey, writeLocalKey,
      writeLedgerKey, writeOfflineKey, kb_writeInfo, List, Sign,
      ExportPrivateKeyObject, Export, ExportPubKey, Import, ImportPubKey,
      Delete, Update, Get, cdc_MustUnmarshalBinary; run.
  16: {
    destruct (dbm.Get (db w) (infoKey name)) as [[|c bz]|]; try reflexivity.
    destruct (readInfo (String c bz)) as [[n p a|n p d|n p]|e];
      simpl; try reflexivity.
    destruct (unarmorDecryptPrivKey a oldpass) as [key|e];
      simpl; try reflexivity.
    pose proof (Hq w) as Q.
    destruct (getNewpass w) as [[newpass|e|] w1]; simpl in Q |- *;
      rewrite Q; try reflexivity.
    unfold dbm.Get; simpl. now rewrite lookup_insert_ne. }
  all: branches; try reflexivity;
    unfold dbm.Get; simpl;
    first [ now rewrite lookup_insert_ne | now rewrite lookup_delete_ne ].
Qed.

Ltac open_methods :=
  unfold discard, CreateMnemonic, CreateKey, CreateFundraiserKey, Derive,
    CreateLedger, CreateOffline, persistDerivedKey, writeLocalKey,
    writeLedgerKey, writeOfflineKey, kb_writeInfo, List, Sign,
    ExportPrivateKeyObject, Export, ExportPubKey, Import, ImportPubKey,
    Delete, Update, Get, cdc_MustUnmarshalBinary; run.


(** X4: no method other than [Sign] reads the standard input or prints:
    after any other call both are what they were (for [Update], when its
    callback leaves them alone). *)
Theorem console_is_left_alone (r : request) (w : World) :
  off_console r ->
  stdin (snd (serve r w)) = stdin w /\ stdout (snd (serve r w)) = stdout w.
Proof.
  intros Hc. destruct r; simpl in Hc |- *; try contradiction; open_methods.
  15: {
    destruct (dbm.Get (db w) (infoKey name)) as [[|c bz]|]; try easy.
    destruct (readInfo (String c bz)) as [[n p a|n p d|n p]|e];
      simpl; try easy.
    destruct (unarmorDecryptPrivKey a oldpass) as [key|e]; simpl; try easy.
    pose proof (Hc w) as Q.
    destruct (getNewpass w) as [[newpass|e|] w1]; simpl in Q |- *; exact Q. }
  all: branches; split; reflexivity.
Qed.

(** X5: when [Get] does not find or cannot decode the record of a name,
    [Sign], [ExportPrivateKeyObject], [Delete] and [Update] on that name
    return the error of [Get] and change nothing; [Update] does not call
    its callback. *)
Theorem missing_record_is_reported
    (name pass msg : string) (getNewpass : Go string) (e : error) (w : World) :
  fst (Get name w) = Fail e ->
  Sign name pass msg w = (Fail e, w) /\
  ExportPrivateKeyObject name pass w = (Fail e, w) /\
  Delete name pass w = (Fail e, w) /\
  Update name pass getNewpass w = (Fail e, w).
Proof.
  intros H.
  assert (G : Get name w = (Fail e, w)).
  { rewrite (surjective_pairing (Get name w)), Get_world. now rewrite H. }
  unfold Sign, ExportPrivateKeyObject, Delete, Update, bind.
  now rewrite G.
Qed.

(** [Get] on a name whose key is absent from the database, or holds the
    empty value, returns the not-found error of that name. *)
Lemma Get_not_found (name : string) (w : World) :
  dbm.Get (db w) (infoKey name) = None \/
  dbm.Get (db w) (infoKey name) = Some EmptyString ->
  Get name w = (Fail (ErrKeyNotFound name), w).
Proof. unfold Get; run. now intros [-> | ->]. Qed.

(** X6: [Sign] on a stored Local record.  With an empty armor it returns
    the error that no private key is available; with a passphrase that does
    not decrypt the armor it returns the decryption error; otherwise it
    returns the signature of the decrypted key on the message together with
    the public key of the decrypted key, or the error of the signing.  In
    every case the world is unchanged: nothing is prompted, read or
    written. *)
Theorem Sign_local
    (name passphrase msg n armor : string) (pub : PubKey) (w : World) :
  stored name (localInfo n pub armor) w ->
  Sign name passphrase msg w =
  (if decide (armor = EmptyString) then Fail ErrPrivKeyNotAvailable
   else match unarmorDecryptPrivKey armor passphrase with
        | Error e => Fail e
        | Ok priv =>
            match priv_Sign priv msg with
            | Error e => Fail e
            | Ok s => Ret (Some s, priv_PubKey priv)
            end
        end, w).
Proof.
  intros Hst. apply stored_Get in Hst.
  unfold Sign, bind at 1. rewrite Hst.
  destruct (decide (armor = EmptyString)); [reflexivity|]. run.
  destruct (unarmorDecryptPrivKey armor passphrase) as [priv|e];
    [|reflexivity].
  simpl. now destruct (priv_Sign priv msg).
Qed.

(** X7: [Sign] on a stored Hardware record asks the device for the key at
    the stored path: it returns the error of the device when the device
    cannot be reached, and otherwise the signature of the device key on the
    message together with the public key the device reports (not the one
    stored in the record), or the error of the signing.  The passphrase is
    not looked at and the world is unchanged. *)
Theorem Sign_ledger
    (name passphrase msg n : string) (pub : PubKey) (path : DerivationPath)
    (w : World) :
  stored name (ledgerInfo n pub path) w ->
  Sign name passphrase msg w =
  (match NewPrivKeyLedgerSecp256k1 path with
   | Error e => Fail e
   | Ok priv =>
       match priv_Sign priv msg with
       | Error e => Fail e
       | Ok s => Ret (Some s, priv_PubKey priv)
       end
   end, w).
Proof.
  intros Hst. apply stored_Get in Hst.
  unfold Sign, bind at 1. rewrite Hst. run.
  destruct (NewPrivKeyLedgerSecp256k1 path) as [priv|e]; [|reflexivity].
  simpl. now destruct (priv_Sign priv msg).
Qed.

(** X8: [ExportPrivateKeyObject] gives out a private key for a Local record
    only, and only with a passphrase that decrypts its armor; on a Hardware
    or WatchOnly record it returns the error that only local keys can be
    exported.  The world is unchanged. *)
Theorem ExportPrivateKeyObject_local_only
    (name passphrase : string) (info : Info) (w : World) :
  stored name info w ->
  ExportPrivateKeyObject name passphrase w =
  (match info with
   | localInfo _ _ armor =>
       if decide (armor = EmptyString) then Fail ErrPrivKeyNotAvailable
       else match unarmorDecryptPrivKey armor passphrase with
            | Error e => Fail e
            | Ok priv => Ret priv
            end
   | _ => Fail ErrOnlyLocalPrivKeys
   end, w).
Proof.
  intros Hst. apply stored_Get in Hst.
  unfold ExportPrivateKeyObject, bind. rewrite Hst.
  destruct info as [n p armor|n p d|n p]; try reflexivity.
  destruct (decide (armor = EmptyString)); [reflexivity|]. run.
  now destruct (unarmorDecryptPrivKey armor passphrase).
Qed.


(** A record written under the key of a name is the record [Get] returns
    for the name, when the codec gives it back. *)
Lemma written_record_is_stored (name : string) (info : Info) (w : World) :
  dbm.Get (db w) (infoKey name) = Some (writeInfo info) ->
  decodable info ->
  stored name info w.
Proof.
  intros H [Hne Hrt]. unfold stored, Get; run. rewrite H.
  destruct (writeInfo info) as [|c bz] eqn:E; [now destruct Hne|].
  now rewrite Hrt.
Qed.

Lemma SetSync_then_Get (d : dbm.DB) (key value : string) :
  dbm.Get (dbm.SetSync d key value) key = Some value.
Proof. unfold dbm.Get; simpl. apply lookup_insert_eq. Qed.

Lemma create_writes
    (c : creation) (name passwd : string) (info : Info) (w w' : World) :
  create c name passwd w = (Ret info, w') ->
  db w' = dbm.SetSync (db w) (infoKey name) (writeInfo info).
Proof.
  destruct c; unfold create; open_methods; branches;
    intros H; inversion H; reflexivity.
Qed.

(** X10: a record that [CreateMnemonic], [CreateKey], [CreateFundraiserKey]
    or [Derive] returns is the record that [Get] then returns for the name,
    whatever the store held under the name before: these methods overwrite
    a record of the same name without asking. *)
Theorem created_record_is_found
    (c : creation) (name passwd : string) (info : Info) (w w' : World) :
  create c name passwd w = (Ret info, w') ->
  decodable info ->
  Get name w' = (Ret info, w').
Proof.
  intros H Hd. apply stored_Get, written_record_is_stored; [|exact Hd].
  rewrite (create_writes _ _ _ _ _ _ H). apply SetSync_then_Get.
Qed.

(** X11: [CreateOffline] always returns the WatchOnly record of the name
    and the public key, written with [SetSync] over whatever was under the
    name, and [Get] then returns that record. *)
Theorem CreateOffline_registers (name : string) (pub : PubKey) (w : World) :
  decodable (offlineInfo name pub) ->
  let w' := set_db (dbm.SetSync (db w) (infoKey name)
                      (writeInfo (offlineInfo name pub))) w in
  CreateOffline name pub w = (Ret (offlineInfo name pub), w') /\
  Get name w' = (Ret (offlineInfo name pub), w').
Proof.
  intros Hd w'. split; [reflexivity|].
  apply stored_Get, written_record_is_stored; [|exact Hd].
  apply SetSync_then_Get.
Qed.

(** X12: [CreateLedger] with an algorithm other than secp256k1 returns
    [ErrUnsupportedSigningAlgo], whatever the device would say; with
    secp256k1 it returns the error of the device when the device cannot be
    reached; in both cases the world is unchanged.  Otherwise it writes,
    with [SetSync] and over whatever was under the name, the Hardware
    record of the name, the public key the device reports and the path,
    returns it, and [Get] then returns that record. *)
Theorem CreateLedger_outcomes
    (name : string) (path : DerivationPath) (algo : SigningAlgo) (w : World) :
  (algo <> Secp256k1 ->
     CreateLedger name path algo w = (Fail ErrUnsupportedSigningAlgo, w)) /\
  (forall e, algo = Secp256k1 ->
     NewPrivKeyLedgerSecp256k1 path = Error e ->
     CreateLedger name path algo w = (Fail e, w)) /\
  (forall priv, algo = Secp256k1 ->
     NewPrivKeyLedgerSecp256k1 path = Ok priv ->
     let info := ledgerInfo name (priv_PubKey priv) path in
     let w' := set_db (dbm.SetSync (db w) (infoKey name) (writeInfo info)) w in
     CreateLedger name path algo w = (Ret info, w') /\
     (decodable info -> Get name w' = (Ret info, w'))).
Proof.
  unfold CreateLedger. repeat split; intros.
  - now destruct (decide (algo <> Secp256k1)).
  - destruct (decide (algo <> Secp256k1)); [contradiction|].
    open_methods. now rewrite H0.
  - destruct (decide (algo <> Secp256k1)); [contradiction|].
    open_methods. now rewrite H0.
  - apply stored_Get, written_record_is_stored; [|assumption].
    apply SetSync_then_Get.
Qed.

(** X13: a key created under a passphrase that is not empty signs under
    that passphrase: when the armor codec decrypts what it encrypted,
    [Sign] with the passphrase of the creation returns the signature that
    a key [priv] derived from a seed makes of the message, with the public
    key of the record, and leaves the world as the creation left it. *)
Theorem created_key_signs
    (c : creation) (name passwd msg : string) (info : Info) (w w' : World) :
  create c name passwd w = (Ret info, w') ->
  passwd <> EmptyString ->
  decodable info ->
  (forall n priv, encryptArmorPrivKey n priv passwd <> EmptyString /\
     unarmorDecryptPrivKey (encryptArmorPrivKey n priv passwd) passwd
     = Ok priv) ->
  exists seed path priv, key_at seed path = Ok priv /\
    GetPubKey info = priv_PubKey priv /\
    Sign name passwd msg w' =
    (match priv_Sign priv msg with
     | Error e => Fail e
     | Ok s => Ret (Some s, priv_PubKey priv)
     end, w').
Proof.
  intros H Hp Hd Harmor.
  assert (HG : Get name w' = (Ret info, w')).
  { apply stored_Get, written_record_is_stored; [|exact Hd].
    rewrite (create_writes _ _ _ _ _ _ H). apply SetSync_then_Get. }
  assert (L : exists seed path priv n, key_at seed path = Ok priv /\
            info = localInfo name (priv_PubKey priv)
                     (encryptArmorPrivKey n priv passwd)).
  { assert (step : forall seed path w0,
      persistDerivedKey seed passwd name path w0 = (Ret info, w') ->
      exists seed path priv n, key_at seed path = Ok priv /\
        info = localInfo name (priv_PubKey priv)
                 (encryptArmorPrivKey n priv passwd)).
    { intros seed path w0 E.
      apply persistDerivedKey_record in E as [_ (priv & Hk & Hl & _)].
      destruct (Hl Hp) as [n Hn]. now exists seed, path, priv, n. }
    clear HG Hd. revert H.
    destruct c as [language algo|mnemonic|mnemonic|mnemonic params];
      unfold create.
    - unfold CreateMnemonic.
      destruct (decide (language <> English)); [discriminate|].
      destruct (decide (algo <> Secp256k1)); [discriminate|].
      run. destruct (bip39_NewMnemonic (draws w)) as [ws|e]; [|discriminate].
      simpl.
      destruct (persistDerivedKey _ passwd name hd_FullFundraiserPath _)
        as [[i| |] w1] eqn:E; try discriminate.
      intros [= <- <-]. eapply step; exact E.
    - unfold CreateKey. destruct (decide _); [discriminate|]. run.
      destruct (bip39_MnemonicToSeedWithErrChecking mnemonic) as [seed|e];
        [|discriminate].
      simpl. apply step.
    - unfold CreateFundraiserKey. destruct (decide _); [discriminate|]. run.
      destruct (bip39_MnemonicToSeedWithErrChecking mnemonic) as [seed|e];
        [|discriminate].
      simpl. apply step.
    - unfold Derive. run.
      destruct (bip39_MnemonicToSeedWithErrChecking mnemonic) as [seed|e];
        [|discriminate].
      simpl. apply step. }
  destruct L as (seed & path & priv & n & Hk & ->).
  exists seed, path, priv. split; [exact Hk|]. split; [reflexivity|].
  destruct (Harmor n priv) as [Hne Hdec].
  unfold Sign, bind at 1. rewrite HG.
  destruct (decide (encryptArmorPrivKey n priv passwd = EmptyString));
    [contradiction|].
  run. rewrite Hdec. simpl. now destruct (priv_Sign priv msg).
Qed.

(** What [stored] says about the database: a value that is not empty and
    that decodes to the record. *)
Lemma stored_bytes (name : string) (info : Info) (w : World) :
  stored name info w ->
  exists c bz, dbm.Get (db w) (infoKey name) = Some (String c bz) /\
               readInfo (String c bz) = Ok info.
Proof.
  unfold stored, Get; run.
  destruct (dbm.Get (db w) (infoKey name)) as [[|c bz]|]; try discriminate.
  destruct (readInfo (String c bz)) as [i|e] eqn:E; [|discriminate].
  intros [= <-]. now exists c, bz.
Qed.

Lemma bytes_stored (name : string) (info : Info) (c : ascii) (bz : string)
    (w : World) :
  dbm.Get (db w) (infoKey name) = Some (String c bz) ->
  readInfo (String c bz) = Ok info ->
  stored name info w.
Proof. intros H R. unfold stored, Get; run. now rewrite H, R. Qed.

(** X14: [Export] followed by [Import] under a free name copies the record:
    when the info armor gives back the bytes it wrapped, the armor that
    [Export] returns for a stored record is accepted by [Import] under any
    name that is not occupied, and afterwards [Get] returns the same record
    under both names.  The copy is the very same record, so it still
    carries the name of the original inside. *)
Theorem Export_then_Import (name name' : string) (info : Info) (w : World) :
  stored name info w ->
  ~ occupied name' w ->
  (forall bz, unarmorInfoBytes (armorInfoBytes bz) = Ok bz) ->
  exists armor,
    Export name w = (Ret armor, w) /\
    fst (Import name' armor w) = Ret tt /\
    stored name' info (snd (Import name' armor w)) /\
    stored name info (snd (Import name' armor w)).
Proof.
  intros Hst Hfree Harmor.
  destruct (stored_bytes _ _ _ Hst) as (c & bz & HG & HR).
  assert (Hne : infoKey name' <> infoKey name).
  { intros E. apply (append_inv_tail _ _ ".info") in E. subst name'.
    apply Hfree. now exists c, bz. }
  exists (armorInfoBytes (String c bz)).
  assert (E : Import name' (armorInfoBytes (String c bz)) w
              = (Ret tt,
                 set_db (dbm.Set' (db w) (infoKey name') (String c bz)) w)).
  { unfold Import; run.
    destruct (dbm.Get (db w) (infoKey name')) as [[|c' bz']|] eqn:E0;
      try (exfalso; apply Hfree; now exists c', bz');
      now rewrite Harmor. }
  rewrite E. simpl. split; [|split; [reflexivity|split]].
  - unfold Export; run. now rewrite HG.
  - apply (bytes_stored _ _ c bz); [|exact HR].
    unfold dbm.Get; simpl. apply lookup_insert_eq.
  - apply (bytes_stored _ _ c bz); [|exact HR].
    unfold dbm.Get; simpl. rewrite lookup_insert_ne; [exact HG | exact Hne].
Qed.

(** X15: [ExportPubKey] followed by [ImportPubKey] under a free name
    registers a WatchOnly record of the same public key: when the public
    key armor and the key encoding give back what they were given, the
    armor that [ExportPubKey] returns for a stored record of any variant is
    accepted by [ImportPubKey], and [Get] then returns under the new name
    the WatchOnly record of the new name and the public key of the
    original. *)
Theorem ExportPubKey_then_ImportPubKey
    (name name' : string) (info : Info) (w : World) :
  stored name info w ->
  ~ occupied name' w ->
  (forall bz, unarmorPubKeyBytes (armorPubKeyBytes bz) = Ok bz) ->
  PubKeyFromBytes (pub_Bytes (GetPubKey info)) = Ok (GetPubKey info) ->
  decodable (offlineInfo name' (GetPubKey info)) ->
  exists armor,
    ExportPubKey name w = (Ret armor, w) /\
    fst (ImportPubKey name' armor w) = Ret tt /\
    stored name' (offlineInfo name' (GetPubKey info))
      (snd (ImportPubKey name' armor w)).
Proof.
  intros Hst Hfree Harmor Hkey Hd.
  destruct (stored_bytes _ _ _ Hst) as (c & bz & HG & HR).
  exists (armorPubKeyBytes (pub_Bytes (GetPubKey info))).
  split.
  - unfold ExportPubKey; run. now rewrite HG, HR.
  - unfold ImportPubKey, writeOfflineKey, kb_writeInfo; run.
    destruct (dbm.Get (db w) (infoKey name')) as [[|c' bz']|] eqn:E;
      try (exfalso; apply Hfree; now exists c', bz');
      rewrite Harmor; simpl; rewrite Hkey; simpl;
      (split; [reflexivity|]);
      (apply written_record_is_stored; [apply SetSync_then_Get | exact Hd]).
Qed.

(** X16: [Import] does not look at the bytes it stores.  An armor whose
    content is empty is imported without error under a free name, but the
    name is then still not found by [Get], still free (a second [Import]
    of a well-formed armor succeeds), and [Export] returns the armor of the
    empty content for it. *)
Theorem Import_of_empty_content (name armor armor' : string) (w : World) :
  ~ occupied name w ->
  unarmorInfoBytes armor = Ok EmptyString ->
  let w' := snd (Import name armor w) in
  fst (Import name armor w) = Ret tt /\
  Get name w' = (Fail (ErrKeyNotFound name), w') /\
  ~ occupied name w' /\
  (forall bz, unarmorInfoBytes armor' = Ok bz ->
     fst (Import name armor' w') = Ret tt) /\
  Export name w' = (Ret (armorInfoBytes EmptyString), w').
Proof.
  intros Hfree Hun w'.
  assert (E : Import name armor w
              = (Ret tt, set_db (dbm.Set' (db w) (infoKey name) EmptyString) w)).
  { unfold Import; run.
    destruct (dbm.Get (db w) (infoKey name)) as [[|c bz]|] eqn:E0;
      try (exfalso; apply Hfree; now exists c, bz); now rewrite Hun. }
  subst w'. rewrite E. simpl.
  assert (G : dbm.Get (dbm.Set' (db w) (infoKey name) EmptyString)
                (infoKey name) = Some EmptyString).
  { unfold dbm.Get; simpl. apply lookup_insert_eq. }
  split; [reflexivity|]. split; [|split; [|split]].
  - unfold Get; run. now rewrite G.
  - intros (c & bz & H). simpl in H. rewrite G in H. discriminate.
  - unfold Import; run. rewrite G.
    intros bz H. now rewrite H.
  - unfold Export; run. now rewrite G.
Qed.

(** X17: [Update] on a stored record.  On a record that is not Local it
    returns the error that a local key is required; on a Local record
    whose armor the old passphrase does not decrypt it returns the
    decryption error; in both cases the callback is not called and the
    world is unchanged.  When the callback fails, its error is returned and
    nothing is written.  When the callback returns a new passphrase, the
    record of the name is replaced, with [SetSync], by a Local record made
    of the name, the public key of the decrypted key and the armor of that
    key under the new passphrase, and [Get] returns this record. *)
Theorem Update_outcomes
    (name oldpass : string) (getNewpass : Go string) (info : Info) (w : World) :
  stored name info w ->
  ((forall n pub armor, info <> localInfo n pub armor) ->
     Update name oldpass getNewpass w = (Fail ErrLocalKeyRequired, w)) /\
  (forall n pub armor e, info = localInfo n pub armor ->
     unarmorDecryptPrivKey armor oldpass = Error e ->
     Update name oldpass getNewpass w = (Fail e, w)) /\
  (forall n pub armor key e w1, info = localInfo n pub armor ->
     unarmorDecryptPrivKey armor oldpass = Ok key ->
     getNewpass w = (Fail e, w1) ->
     Update name oldpass getNewpass w = (Fail e, w1)) /\
  (forall n pub armor key newpass w1, info = localInfo n pub armor ->
     unarmorDecryptPrivKey armor oldpass = Ok key ->
     getNewpass w = (Ret newpass, w1) ->
     let info' := localInfo name (priv_PubKey key)
                    (encryptArmorPrivKey (draws w1) key newpass) in
     fst (Update name oldpass getNewpass w) = Ret tt /\
     db (snd (Update name oldpass getNewpass w))
     = dbm.SetSync (db w1) (infoKey name) (writeInfo info') /\
     (decodable info' ->
      stored name info' (snd (Update name oldpass getNewpass w)))).
Proof.
  intros Hst. apply stored_Get in Hst.
  repeat split; intros; unfold Update, bind; rewrite Hst.
  - destruct info as [n p a| |]; try reflexivity. now destruct (H n p a).
  - subst info. run. now rewrite H0.
  - subst info. run. rewrite H0. simpl. now rewrite H1.
  - subst info. run. rewrite H0. simpl. now rewrite H1.
  - subst info. run. rewrite H0. simpl. now rewrite H1.
  - subst info. run. rewrite H0. simpl. rewrite H1.
    unfold writeLocalKey, kb_writeInfo; run.
    apply written_record_is_stored; [apply SetSync_then_Get | assumption].
Qed.

(** X18: [Update] changes the passphrase and keeps the key.  After an
    [Update] that returned without error, when the armor codec decrypts
    what it encrypted, [ExportPrivateKeyObject] with the new passphrase
    returns the key that the old passphrase decrypted. *)
Theorem Update_keeps_the_key
    (name oldpass newpass n armor : string) (pub : PubKey) (key : PrivKey)
    (getNewpass : Go string) (w w1 : World) :
  stored name (localInfo n pub armor) w ->
  unarmorDecryptPrivKey armor oldpass = Ok key ->
  getNewpass w = (Ret newpass, w1) ->
  let armor' := encryptArmorPrivKey (draws w1) key newpass in
  decodable (localInfo name (priv_PubKey key) armor') ->
  armor' <> EmptyString ->
  unarmorDecryptPrivKey armor' newpass = Ok key ->
  let w' := snd (Update name oldpass getNewpass w) in
  ExportPrivateKeyObject name newpass w' = (Ret key, w').
Proof.
  intros Hst Hdec Hcb armor' Hd Hne Hrt w'.
  apply stored_Get in Hst.
  assert (G : Get name w' = (Ret (localInfo name (priv_PubKey key) armor'), w')).
  { apply stored_Get, written_record_is_stored; [|exact Hd].
    subst w'. unfold Update, bind; rewrite Hst. run.
    rewrite Hdec. simpl. rewrite Hcb.
    unfold writeLocalKey, kb_writeInfo; run. apply SetSync_then_Get. }
  unfold ExportPrivateKeyObject, bind. rewrite G.
  destruct (decide (armor' = EmptyString)); [contradiction|].
  run. now rewrite Hrt.
Qed.

Lemma List_in_key_order_aux (w : World) (infos : list Info) :
  fst (List w) = Ret infos ->
  Forall2 (fun e i => readInfo e.2 = Ok i) (dbm.Iterator (db w)) infos.
Proof.
  unfold List; run. intros H.
  destruct (List_loop (dbm.Iterator (db w)) []) as [l|e] eqn:E;
    [|discriminate].
  simpl in H. injection H as <-.
  now apply List_loop_reads in E as (more & -> & F).
Qed.

Lemma Iterator_entries (d : dbm.DB) (key value : string) :
  (key, value) ∈ dbm.Iterator d <-> dbm.cells d !! key = Some value.
Proof.
  unfold dbm.Iterator. rewrite merge_sort_Permutation.
  apply elem_of_map_to_list.
Qed.

(** X19: one entry that does not decode makes [List] fail: when some value
    of the database is rejected by the record codec, [List] returns an
    error and no list, however many of the other entries are in order. *)
Theorem List_fails_on_undecodable_entry
    (key value : string) (e : error) (w : World) :
  dbm.cells (db w) !! key = Some value ->
  readInfo value = Error e ->
  exists e', List w = (Fail e', w).
Proof.
  intros Hin Hbad. unfold List; run.
  destruct (List_loop (dbm.Iterator (db w)) []) as [infos|e'] eqn:E;
    [|now exists e'].
  exfalso. apply List_loop_reads in E as (more & _ & F).
  apply Iterator_entries in Hin.
  apply list_elem_of_lookup in Hin as [i Hi].
  destruct (Forall2_lookup_l _ _ _ _ _ F Hi) as (info & _ & Hok).
  simpl in Hok. congruence.
Qed.

(** X20: when [List] returns a list, the list has one record for every
    entry of the database, and every record that [Get] returns for some
    name is in it. *)
Theorem List_covers_the_store (infos : list Info) (w : World) :
  fst (List w) = Ret infos ->
  length infos = size (dbm.cells (db w)) /\
  forall name info, stored name info w -> info ∈ infos.
Proof.
  intros H. apply List_in_key_order_aux in H as F.
  split.
  - rewrite <- (Forall2_length _ _ _ F). unfold dbm.Iterator.
    rewrite merge_sort_Permutation. apply length_map_to_list.
  - intros name info Hst.
    destruct (stored_bytes _ _ _ Hst) as (c & bz & HG & HR).
    apply Iterator_entries in HG.
    apply list_elem_of_lookup in HG as [i Hi].
    destruct (Forall2_lookup_l _ _ _ _ _ F Hi) as (info' & Hi' & Hok).
    simpl in Hok. rewrite HR in Hok. injection Hok as <-.
    apply list_elem_of_lookup. now exists i.
Qed.

Lemma count_sep_append (sep : ascii) (a b : string) :
  count_sep sep (a +:+ b) = count_sep sep a + count_sep sep b.
Proof.
  induction a as [|c a IH]; [reflexivity|].
  change (count_sep sep (String c (a +:+ b))
          = count_sep sep (String c a) + count_sep sep b).
  simpl. rewrite IH. lia.
Qed.

Lemma count_sep_Join (ws : list string) :
  Forall (fun s => count_sep " " s = 0) ws ->
  count_sep " " (Join ws " ") = pred (length ws).
Proof.
  induction 1 as [|x ws Hx Hws IH]; [reflexivity|].
  destruct ws as [|y ws]; [exact Hx|].
  change (Join (x :: y :: ws) " ") with (x +:+ " " +:+ Join (y :: ws) " ").
  rewrite !count_sep_append, Hx, IH. reflexivity.
Qed.

Lemma persistDerivedKey_succeeds
    (seed passwd name path : string) (priv : PrivKey) (w : World) :
  key_at seed path = Ok priv ->
  exists info w',
    persistDerivedKey seed passwd name path w = (Ret info, w') /\
    GetPubKey info = priv_PubKey priv.
Proof.
  unfold key_at, persistDerivedKey.
  destruct (hd_ComputeMastersFromSeed seed) as [masterPriv ch].
  unfold bind at 1.
  destruct (hd_DerivePrivateKeyForPath masterPriv ch path) as [d|e];
    [|discriminate].
  intros [= <-]. simpl.
  destruct (decide (passwd <> ""));
    unfold writeLocalKey, writeOfflineKey, kb_writeInfo; run;
    eexists; eexists; split; reflexivity.
Qed.

(** X21: the mnemonic that [CreateMnemonic] hands out restores the key.
    When the generator gives 24 words without spaces and the checked seed
    function agrees with the unchecked one on the mnemonic, [CreateKey] on
    the returned mnemonic, under any name and in any store, passes the
    count of the words and returns a record with the public key of the
    record that [CreateMnemonic] returned. *)
Theorem fresh_mnemonic_restores
    (name name2 passwd mnemonic : string) (language : Language)
    (algo : SigningAlgo) (info : Info) (w w' w2 : World) :
  CreateMnemonic name language passwd algo w = (Ret (info, mnemonic), w') ->
  (forall n ws, bip39_NewMnemonic n = Ok ws ->
     length ws = 24 /\ Forall (fun s => count_sep " " s = 0) ws) ->
  bip39_MnemonicToSeedWithErrChecking mnemonic
  = Ok (bip39_MnemonicToSeed mnemonic) ->
  exists info2 w2',
    CreateKey name2 mnemonic passwd w2 = (Ret info2, w2') /\
    GetPubKey info2 = GetPubKey info.
Proof.
  intros H Hgen Hseed. revert H. unfold CreateMnemonic.
  destruct (decide (language <> English)); [discriminate|].
  destruct (decide (algo <> Secp256k1)); [discriminate|].
  run. destruct (bip39_NewMnemonic (draws w)) as [ws|e] eqn:Ews;
    [|discriminate].
  simpl.
  destruct (persistDerivedKey _ passwd name hd_FullFundraiserPath _)
    as [[i| |] w1] eqn:E; try discriminate.
  intros [= -> <- <-].
  destruct (Hgen _ _ Ews) as [Hlen Hws].
  apply persistDerivedKey_record in E as [_ (priv & Hk & Hl & Ho)].
  assert (Hpub : GetPubKey info = priv_PubKey priv).
  { destruct (decide (passwd = "")) as [Hp|Hp].
    - now rewrite (Ho Hp).
    - destruct (Hl Hp) as [k ->]. reflexivity. }
  destruct (persistDerivedKey_succeeds _ passwd name2 _ _ w2 Hk)
    as (info2 & w2' & E2 & Hpub2).
  exists info2, w2'. split; [|congruence].
  unfold CreateKey.
  rewrite Split_length, count_sep_Join, Hlen by exact Hws. simpl.
  destruct (decide (24 <> 12 /\ 24 <> 24)) as [[_ Hn]|_];
    [now destruct Hn|].
  run. rewrite Hseed. simpl. exact E2.
Qed.

(** X22: [Import] accepts any content an armor wraps.  When the content is
    not empty and the record codec rejects it, [Import] under a free name
    still returns without error; afterwards [Get] on the name returns the
    error of the codec, and [List] fails for the whole store. *)
Theorem Import_of_undecodable_content
    (name armor bz : string) (c : ascii) (e : error) (w : World) :
  ~ occupied name w ->
  unarmorInfoBytes armor = Ok (String c bz) ->
  readInfo (String c bz) = Error e ->
  let w' := snd (Import name armor w) in
  fst (Import name armor w) = Ret tt /\
  Get name w' = (Fail e, w') /\
  exists e', List w' = (Fail e', w').
Proof.
  intros Hfree Hun Hbad w'.
  assert (E : Import name armor w
              = (Ret tt,
                 set_db (dbm.Set' (db w) (infoKey name) (String c bz)) w)).
  { unfold Import; run.
    destruct (dbm.Get (db w) (infoKey name)) as [[|c' bz']|] eqn:E0;
      try (exfalso; apply Hfree; now exists c', bz'); now rewrite Hun. }
  subst w'. rewrite E. simpl.
  assert (G : dbm.Get (dbm.Set' (db w) (infoKey name) (String c bz))
                (infoKey name) = Some (String c bz)).
  { unfold dbm.Get; simpl. apply lookup_insert_eq. }
  split; [reflexivity|]. split.
  - unfold Get; run. now rewrite G, Hbad.
  - unfold List; run.
    destruct (List_loop _ []) as [infos|e'] eqn:L; [|now exists e'].
    exfalso. apply List_loop_reads in L as (more & _ & F).
    apply Iterator_entries in G.
    apply list_elem_of_lookup in G as [i Hi].
    destruct (Forall2_lookup_l _ _ _ _ _ F Hi) as (info & _ & Hok).
    simpl in Hok. congruence.
Qed.

Lemma compare_infoKey (a b : string) :
  plain a = true -> plain b = true ->
  String.compare (infoKey a) (infoKey b) = String.compare a b.
Proof.
  unfold infoKey. revert b.
  induction a as [|c a IH]; intros [|d b] Ha Hb.
  - reflexivity.
  - change (String.compare ".info" (String d (b +:+ ".info")) = Lt).
    simpl in Hb. apply andb_prop in Hb as [Hd _].
    unfold Ascii.ltb in Hd. simpl.
    now destruct (Ascii.compare "." d).
  - change (String.compare (String c (a +:+ ".info")) ".info" = Gt).
    simpl in Ha. apply andb_prop in Ha as [Hc _].
    unfold Ascii.ltb in Hc. simpl.
    rewrite Ascii.compare_antisym.
    now destruct (Ascii.compare "." c).
  - change (String.compare (String c (a +:+ ".info"))
              (String d (b +:+ ".info"))
            = String.compare (String c a) (String d b)).
    simpl in Ha, Hb |- *.
    apply andb_prop in Ha as [_ Ha]. apply andb_prop in Hb as [_ Hb].
    destruct (Ascii.compare c d); try reflexivity. now apply IH.
Qed.

Lemma Sorted_Forall2 {A B : Type} (RA : relation A) (RB : relation B)
    (P : A -> B -> Prop) (l1 : list A) (l2 : list B) :
  (forall a a' b b', a ∈ l1 -> a' ∈ l1 -> P a b -> P a' b' ->
     RA a a' -> RB b b') ->
  Forall2 P l1 l2 -> Sorted RA l1 -> Sorted RB l2.
Proof.
  intros Hrel F. induction F as [|a b l1 l2 Hab F IH]; intros S.
  - constructor.
  - inversion S as [|? ? S' Hd]; subst. constructor.
    + apply IH; [|exact S'].
      intros x x' y y' Hx Hx'. apply Hrel; now apply list_elem_of_further.
    + destruct F as [|a' b' l1' l2' Hab' F']; constructor.
      inversion Hd; subst.
      apply (Hrel a a' b b'); try assumption.
      * apply list_elem_of_here.
      * apply list_elem_of_further, list_elem_of_here.
Qed.

(** X24: in a store in which every record sits under the key of the name
    it carries and every name is made of bytes above '.', the list that
    [List] returns is in ascending byte-wise order of the names. *)
Theorem List_in_name_order_for_plain_names (infos : list Info) (w : World) :
  fst (List w) = Ret infos ->
  well_named w ->
  names_ascending infos.
Proof.
  intros H Hwn.
  assert (S : Sorted dbm.key_le (dbm.Iterator (db w)))
    by (apply Sorted_merge_sort; apply _).
  apply List_in_key_order_aux in H as F.
  unfold names_ascending.
  refine (Sorted_Forall2 _ _ _ _ _ _ F S).
  intros [k v] [k' v'] i i' Hin Hin' Hr Hr' Hle.
  apply Iterator_entries in Hin, Hin'. simpl in Hr, Hr'.
  destruct (Hwn _ _ _ Hin Hr) as [-> Hp].
  destruct (Hwn _ _ _ Hin' Hr') as [-> Hp'].
  unfold dbm.key_le, String.leb in Hle |- *. simpl in Hle.
  now rewrite compare_infoKey in Hle.
Qed.

End Properties.

(** ** The properties at work on the test double *)

Section Runs.
#[local] Existing Instances Fake.types Fake.collab.

Example Get_alice :
  fst (Get "alice" Fake.alice)
  = Ret (localInfo "alice" "pub:seed:a b c d e f g h i j k l/44'/118'/0'/0/0"
           "pw1#seed:a b c d e f g h i j k l/44'/118'/0'/0/0").
Proof. reflexivity. Qed.

Example List_ab :
  fst (List Fake.ab) = Ret [offlineInfo "a-b" "pk2"; offlineInfo "a" "pk1"].
Proof. vm_compute. reflexivity. Qed.

Example Sign_bob_panics :
  fst (Sign "bob" "" "msg" (Fake.bob (Fake.line "c2lnbmF0dXJl"))) = Panic.
Proof. reflexivity. Qed.

Example Delete_bob :
  fst (Delete "bob" "no" (Fake.bob "")) = Fail ErrEnterYes /\
  fst (Delete "bob" "yes" (Fake.bob "")) = Ret tt.
Proof. split; reflexivity. Qed.

Lemma Sign_offline_returns_no_signature_witness :
  stored "bob" Fake.bob_info (Fake.bob (Fake.line "c2lnbmF0dXJl")) /\
  forall (s : Signature) (pk : PubKey),
    fst (Sign "bob" "" "msg" (Fake.bob (Fake.line "c2lnbmF0dXJl")))
    <> Ret (Some s, pk).
Proof.
  assert (H : stored "bob" Fake.bob_info
                (Fake.bob (Fake.line "c2lnbmF0dXJl"))) by reflexivity.
  split; [exact H|].
  exact (proj2 (Sign_offline_returns_no_signature (KT := Fake.types)
                  "bob" "" "msg" "bob" "pk"
                  (Fake.bob (Fake.line "c2lnbmF0dXJl")) H)).
Defined.

Lemma Sign_offline_panics_on_rejected_reply_witness :
  fst (Sign "bob" "" "msg" (Fake.bob (Fake.line "not amino"))) = Panic.
Proof.
  apply (Sign_offline_panics_on_rejected_reply (KT := Fake.types)
           "bob" "" "msg" "bob" (Fake.line "not amino") "" "pk").
  - reflexivity.
  - reflexivity.
  - intros s. vm_compute. discriminate.
Defined.

Lemma Delete_asks_for_authorization_witness :
  Delete "bob" "no" (Fake.bob "") = (Fail ErrEnterYes, Fake.bob "") /\
  Delete "alice" "bad" Fake.alice
  = (Fail (ErrForeign "decryption failed"), Fake.alice) /\
  fst (Delete "alice" "pw1" Fake.alice) = Ret tt.
Proof.
  assert (Hb : stored "bob" Fake.bob_info (Fake.bob "")) by reflexivity.
  assert (Ha : stored "alice" Fake.alice_info Fake.alice) by reflexivity.
  split; [|split].
  - refine (proj2 (proj2 (proj2
      (Delete_asks_for_authorization "bob" "no" _ _ Hb))) "bob" "pk" eq_refl _).
    discriminate.
  - refine (proj1 (Delete_asks_for_authorization "alice" "bad" _ _ Ha)
              _ _ _ _ eq_refl _).
    reflexivity.
  - refine (f_equal fst (proj1 (proj1 (proj2
      (Delete_asks_for_authorization "alice" "pw1" _ _ Ha))
        _ _ _ Fake.alice_key eq_refl _))).
    reflexivity.
Defined.

Lemma Delete_ledger_changes_nothing_witness :
  Delete "nano" "yes" Fake.nano = (Ret tt, Fake.nano).
Proof.
  apply (Delete_ledger_changes_nothing (KT := Fake.types)
           "nano" "yes" "nano" "pub:ledger:44/118/0/0/0" "44/118/0/0/0").
  reflexivity.
Defined.

Lemma passphrase_decides_the_variant_witness :
  create (ViaCreateKey "a b c d e f g h i j k l") "alice" "pw1" (Fake.world "")
  = (Ret Fake.alice_info,
     mkWorld (dbm.SetSync dbm.empty "alice.info" (writeInfo Fake.alice_info))
       "" "" 1) /\
  create (ViaDerive "a b c" "44'/118'/1'/0/0") "watch" "" (Fake.world "")
  = (Ret Fake.watch_info,
     mkWorld (dbm.SetSync dbm.empty "watch.info" (writeInfo Fake.watch_info))
       "" "" 0).
Proof.
  split.
  - refine (proj1 (proj1 (passphrase_decides_the_variant (KT := Fake.types)
                            (ViaCreateKey "a b c d e f g h i j k l")
                            "alice" "pw1" (Fake.world ""))
                     "seed:a b c d e f g h i j k l" "44'/118'/0'/0/0"
                     (Fake.world "") Fake.alice_key _ _) _).
    + apply (derives_CreateKey (KT := Fake.types));
        [left; reflexivity | reflexivity].
    + reflexivity.
    + discriminate.
  - refine (proj2 (proj1 (passphrase_decides_the_variant (KT := Fake.types)
                            (ViaDerive "a b c" "44'/118'/1'/0/0")
                            "watch" "" (Fake.world ""))
                     "seed:a b c" "44'/118'/1'/0/0"
                     (Fake.world "") "seed:a b c/44'/118'/1'/0/0" _ _) _).
    + exact (derives_Derive (KT := Fake.types) (Fake.world "")
               "a b c" "seed:a b c" "44'/118'/1'/0/0" eq_refl).
    + reflexivity.
    + reflexivity.
Defined.

Lemma CreateMnemonic_unsupported_witness :
  CreateMnemonic "carol" Japanese "pw" "secp256k1" (Fake.world "")
  = (Fail ErrUnsupportedLanguage, Fake.world "") /\
  CreateMnemonic "carol" English "pw" "ed25519" (Fake.world "")
  = (Fail ErrUnsupportedSigningAlgo, Fake.world "").
Proof.
  split.
  - apply (proj1 (CreateMnemonic_unsupported (KT := Fake.types)
                    "carol" "pw" Japanese "secp256k1" (Fake.world ""))).
    discriminate.
  - apply (proj2 (CreateMnemonic_unsupported (KT := Fake.types)
                    "carol" "pw" English "ed25519" (Fake.world ""))).
    discriminate.
Defined.

Lemma mnemonic_length_is_checked_witness :
  CreateFundraiserKey "carol" "one two three" "pw" (Fake.world "")
  = (Fail (ErrWords12 3), Fake.world "") /\
  CreateKey "carol" "one two three" "pw" (Fake.world "")
  = (Fail (ErrWords12or24 3), Fake.world "").
Proof.
  destruct (mnemonic_length_is_checked "carol" "one two three" "pw"
              (Fake.world "") ltac:(discriminate)) as [H12 H24].
  split; [exact H12 | apply H24; discriminate].
Defined.

Lemma Import_refuses_occupied_name_witness :
  Import "bob" "INFO:O|bob|other" (Fake.bob "")
  = (Fail (ErrCannotOverwrite "bob"), Fake.bob "") /\
  ImportPubKey "bob" "PUB:other" (Fake.bob "")
  = (Fail (ErrCannotOverwrite "bob"), Fake.bob "").
Proof.
  assert (H : occupied "bob" (Fake.bob ""))
    by (exists "O"%char, "|bob|pk"; reflexivity).
  split.
  - exact (proj1 (Import_refuses_occupied_name "bob" "INFO:O|bob|other"
                    (Fake.bob "") H)).
  - exact (proj2 (Import_refuses_occupied_name "bob" "PUB:other"
                    (Fake.bob "") H)).
Defined.

Lemma List_orders_by_key_not_by_name_witness :
  fst (List Fake.ab)
  = Ret [@offlineInfo Fake.types "a-b" "pk2"; @offlineInfo Fake.types "a" "pk1"].
Proof.
  apply (List_orders_by_key_not_by_name (KT := Fake.types)
           "pk1" "pk2" (Fake.world "")); reflexivity.
Defined.

Lemma writes_are_durable_except_in_Import_witness :
  wrote (Fake.world "")
    (snd (Import "carol" "INFO:O|carol|pk" (Fake.world "")))
    [dbm.CallSet "carol.info" "O|carol|pk"] /\
  wrote (Fake.world "")
    (snd (ImportPubKey "carol" "PUB:pk" (Fake.world "")))
    [dbm.CallSetSync "carol.info" "O|carol|pk"] /\
  wrote (Fake.bob "") (snd (Delete "bob" "yes" (Fake.bob "")))
    [dbm.CallDeleteSync "bob.info"] /\
  wrote (Fake.world "")
    (snd (create (ViaCreateKey "a b c d e f g h i j k l") "alice" "pw1"
            (Fake.world "")))
    [dbm.CallSetSync "alice.info" (writeInfo Fake.alice_info)].
Proof.
  destruct (writes_are_durable_except_in_Import (KT := Fake.types))
    as (Hcreate & _ & _ & Hpub & _ & Hdelete & Himport & _).
  assert (Hfree : ~ occupied "carol" (Fake.world "")).
  { intros (c & bz & H). vm_compute in H. discriminate H. }
  repeat apply conj.
  - apply (Himport "carol" "INFO:O|carol|pk" "O|carol|pk" (Fake.world ""));
      [exact Hfree | reflexivity].
  - apply (Hpub "carol" "PUB:pk" "pk" "pk" (Fake.world ""));
      [exact Hfree | reflexivity | reflexivity].
  - apply (Hdelete "bob" "yes" Fake.bob_info (Fake.bob ""));
      reflexivity.
  - apply (Hcreate (ViaCreateKey "a b c d e f g h i j k l") "alice" "pw1"
             (Fake.world "") "seed:a b c d e f g h i j k l" "44'/118'/0'/0/0"
             (Fake.world "") Fake.alice_key).
    + apply (derives_CreateKey (KT := Fake.types));
        [left; reflexivity | reflexivity].
    + reflexivity.
Defined.

Example Import_carol_is_not_durable :
  dbm.journal (db (snd (Import "carol" "INFO:O|carol|pk" (Fake.world ""))))
  = [dbm.CallSet "carol.info" "O|carol|pk"] /\
  dbm.journal (db (snd (ImportPubKey "carol" "PUB:pk" (Fake.world ""))))
  = [dbm.CallSetSync "carol.info" "O|carol|pk"].
Proof. split; reflexivity. Qed.

Lemma infoKey_inj_witness : "bob" = "bob".
Proof. apply infoKey_inj. reflexivity. Defined.

Lemma other_names_are_untouched_witness :
  dbm.Get (db (snd (serve (ReqDelete "a" "yes") Fake.ab))) (infoKey "a-b")
  = dbm.Get (db Fake.ab) (infoKey "a-b").
Proof.
  apply (other_names_are_untouched (KT := Fake.types) (ReqDelete "a" "yes")).
  - exact I.
  - intros H. discriminate H.
Defined.


Lemma console_is_left_alone_witness :
  stdin (snd (serve (ReqDelete "bob" "yes") (Fake.bob "typed")))
  = stdin (Fake.bob "typed") /\
  stdout (snd (serve (ReqDelete "bob" "yes") (Fake.bob "typed")))
  = stdout (Fake.bob "typed").
Proof.
  apply (console_is_left_alone (KT := Fake.types) (ReqDelete "bob" "yes")).
  exact I.
Defined.

Lemma missing_record_is_reported_witness :
  Sign "ghost" "" "msg" (Fake.world "")
  = (Fail (ErrKeyNotFound "ghost"), Fake.world "") /\
  ExportPrivateKeyObject "ghost" "" (Fake.world "")
  = (Fail (ErrKeyNotFound "ghost"), Fake.world "") /\
  Delete "ghost" "" (Fake.world "")
  = (Fail (ErrKeyNotFound "ghost"), Fake.world "") /\
  Update "ghost" "" Fake.pw2 (Fake.world "")
  = (Fail (ErrKeyNotFound "ghost"), Fake.world "").
Proof.
  apply (missing_record_is_reported (KT := Fake.types)
           "ghost" "" "msg" Fake.pw2).
  reflexivity.
Defined.

Lemma Sign_local_witness :
  Sign "alice" "pw1" "msg" Fake.alice
  = (Ret (Some ("sig:" +:+ Fake.alice_key +:+ ":msg"),
          "pub:" +:+ Fake.alice_key), Fake.alice) /\
  Sign "alice" "bad" "msg" Fake.alice
  = (Fail (ErrForeign "decryption failed"), Fake.alice).
Proof.
  assert (H : stored "alice" Fake.alice_info Fake.alice) by reflexivity.
  split.
  - exact (eq_trans (Sign_local (KT := Fake.types) "alice" "pw1" "msg"
                       _ _ _ Fake.alice H) eq_refl).
  - exact (eq_trans (Sign_local (KT := Fake.types) "alice" "bad" "msg"
                       _ _ _ Fake.alice H) eq_refl).
Defined.

Lemma Sign_ledger_witness :
  Sign "nano" "" "msg" Fake.nano
  = (Ret (Some "sig:ledger:44/118/0/0/0:msg", "pub:ledger:44/118/0/0/0"),
     Fake.nano).
Proof.
  assert (H : stored "nano" Fake.nano_info Fake.nano) by reflexivity.
  exact (eq_trans (Sign_ledger (KT := Fake.types) "nano" "" "msg"
                     _ _ _ Fake.nano H) eq_refl).
Defined.

Lemma ExportPrivateKeyObject_local_only_witness :
  ExportPrivateKeyObject "bob" "" (Fake.bob "")
  = (Fail ErrOnlyLocalPrivKeys, Fake.bob "") /\
  ExportPrivateKeyObject "alice" "pw1" Fake.alice
  = (Ret Fake.alice_key, Fake.alice).
Proof.
  assert (Hb : stored "bob" Fake.bob_info (Fake.bob "")) by reflexivity.
  assert (Ha : stored "alice" Fake.alice_info Fake.alice) by reflexivity.
  split.
  - exact (eq_trans (ExportPrivateKeyObject_local_only (KT := Fake.types)
                       "bob" "" _ _ Hb) eq_refl).
  - exact (eq_trans (ExportPrivateKeyObject_local_only (KT := Fake.types)
                       "alice" "pw1" _ _ Ha) eq_refl).
Defined.


Lemma created_record_is_found_witness :
  Get "alice" Fake.alice = (Ret Fake.alice_info, Fake.alice).
Proof.
  apply (created_record_is_found (KT := Fake.types)
           (ViaCreateKey "a b c d e f g h i j k l") "alice" "pw1"
           Fake.alice_info (Fake.world "") Fake.alice).
  - reflexivity.
  - split; [discriminate | reflexivity].
Defined.

Lemma CreateOffline_registers_witness :
  Get "bob" (Fake.bob "") = (Ret Fake.bob_info, Fake.bob "").
Proof.
  apply (CreateOffline_registers (KT := Fake.types) "bob" "pk" (Fake.world "")).
  split; [discriminate | reflexivity].
Defined.

Lemma created_key_signs_witness :
  exists seed path priv, key_at seed path = Ok priv /\
    GetPubKey Fake.alice_info = priv_PubKey priv /\
    Sign "alice" "pw1" "msg" Fake.alice =
    (match priv_Sign priv "msg" with
     | Error e => Fail e
     | Ok s => Ret (Some s, priv_PubKey priv)
     end, Fake.alice).
Proof.
  apply (created_key_signs (KT := Fake.types)
           (ViaCreateKey "a b c d e f g h i j k l") "alice" "pw1" "msg"
           Fake.alice_info (Fake.world "") Fake.alice).
  - reflexivity.
  - discriminate.
  - split; [discriminate | reflexivity].
  - intros n priv. split; [discriminate | reflexivity].
Defined.

Lemma Export_then_Import_witness :
  exists armor,
    Export "bob" (Fake.bob "") = (Ret armor, Fake.bob "") /\
    fst (Import "carol" armor (Fake.bob "")) = Ret tt /\
    stored "carol" Fake.bob_info (snd (Import "carol" armor (Fake.bob ""))) /\
    stored "bob" Fake.bob_info (snd (Import "carol" armor (Fake.bob ""))).
Proof.
  apply (Export_then_Import (KT := Fake.types) "bob" "carol" Fake.bob_info).
  - reflexivity.
  - intros (c & bz & H). vm_compute in H. discriminate H.
  - intros bz. reflexivity.
Defined.

Lemma ExportPubKey_then_ImportPubKey_witness :
  exists armor,
    ExportPubKey "alice" Fake.alice = (Ret armor, Fake.alice) /\
    fst (ImportPubKey "carol" armor Fake.alice) = Ret tt /\
    stored "carol" (offlineInfo "carol" (GetPubKey Fake.alice_info))
      (snd (ImportPubKey "carol" armor Fake.alice)).
Proof.
  apply (ExportPubKey_then_ImportPubKey (KT := Fake.types)
           "alice" "carol" Fake.alice_info).
  - reflexivity.
  - intros (c & bz & H). vm_compute in H. discriminate H.
  - intros bz. reflexivity.
  - reflexivity.
  - split; [discriminate | reflexivity].
Defined.

Lemma Import_of_empty_content_witness :
  fst (Import "carol" "INFO:" (Fake.world "")) = Ret tt /\
  fst (Get "carol" (snd (Import "carol" "INFO:" (Fake.world ""))))
  = Fail (ErrKeyNotFound "carol").
Proof.
  assert (Hfree : ~ occupied "carol" (Fake.world "")).
  { intros (c & bz & H). vm_compute in H. discriminate H. }
  assert (Hun : unarmorInfoBytes "INFO:" = Ok "") by reflexivity.
  destruct (Import_of_empty_content (KT := Fake.types)
              "carol" "INFO:" "INFO:O|carol|pk" (Fake.world "") Hfree Hun)
    as (Hok & HG & _).
  split; [exact Hok | exact (f_equal fst HG)].
Defined.

Lemma Import_of_undecodable_content_witness :
  fst (Import "junk" "INFO:garbage" (Fake.world "")) = Ret tt /\
  fst (Get "junk" Fake.junk) = Fail (ErrForeign "unknown record") /\
  exists e', List Fake.junk = (Fail e', Fake.junk).
Proof.
  assert (Hfree : ~ occupied "junk" (Fake.world "")).
  { intros (c & bz & H). vm_compute in H. discriminate H. }
  assert (Hun : unarmorInfoBytes "INFO:garbage" = Ok "garbage")
    by reflexivity.
  assert (Hbad : readInfo "garbage" = Error (ErrForeign "unknown record"))
    by reflexivity.
  destruct (Import_of_undecodable_content (KT := Fake.types)
              "junk" "INFO:garbage" "arbage" "g" (ErrForeign "unknown record")
              (Fake.world "") Hfree Hun Hbad)
    as (Hok & HG & HL).
  split; [exact Hok|]. split; [exact (f_equal fst HG) | exact HL].
Defined.

Lemma Update_outcomes_witness :
  Update "bob" "" Fake.pw2 (Fake.bob "")
  = (Fail ErrLocalKeyRequired, Fake.bob "") /\
  Update "alice" "bad" Fake.pw2 Fake.alice
  = (Fail (ErrForeign "decryption failed"), Fake.alice) /\
  fst (Update "alice" "pw1" Fake.pw2 Fake.alice) = Ret tt.
Proof.
  assert (Hb : stored "bob" Fake.bob_info (Fake.bob "")) by reflexivity.
  assert (Ha : stored "alice" Fake.alice_info Fake.alice) by reflexivity.
  split; [|split].
  - apply (proj1 (Update_outcomes (KT := Fake.types)
                    "bob" "" Fake.pw2 _ _ Hb)).
    intros n pub armor H. discriminate H.
  - apply (proj1 (proj2 (Update_outcomes (KT := Fake.types)
                           "alice" "bad" Fake.pw2 _ _ Ha))
             "alice" ("pub:" +:+ Fake.alice_key) ("pw1#" +:+ Fake.alice_key));
      reflexivity.
  - apply (proj2 (proj2 (proj2 (Update_outcomes (KT := Fake.types)
                                  "alice" "pw1" Fake.pw2 _ _ Ha)))
             "alice" ("pub:" +:+ Fake.alice_key) ("pw1#" +:+ Fake.alice_key)
             Fake.alice_key "pw2" Fake.alice);
      reflexivity.
Defined.

Lemma Update_keeps_the_key_witness :
  ExportPrivateKeyObject "alice" "pw2"
    (snd (Update "alice" "pw1" Fake.pw2 Fake.alice))
  = (Ret Fake.alice_key, snd (Update "alice" "pw1" Fake.pw2 Fake.alice)).
Proof.
  apply (Update_keeps_the_key (KT := Fake.types) "alice" "pw1" "pw2"
           "alice" ("pw1#" +:+ Fake.alice_key) ("pub:" +:+ Fake.alice_key)
           Fake.alice_key Fake.pw2 Fake.alice Fake.alice).
  - reflexivity.
  - reflexivity.
  - reflexivity.
  - split; [discriminate | reflexivity].
  - discriminate.
  - reflexivity.
Defined.

Lemma List_fails_on_undecodable_entry_witness :
  exists e', List Fake.junk = (Fail e', Fake.junk).
Proof.
  apply (List_fails_on_undecodable_entry (KT := Fake.types)
           "junk.info" "garbage" (ErrForeign "unknown record")).
  - reflexivity.
  - reflexivity.
Defined.

Lemma List_covers_the_store_witness :
  length [@offlineInfo Fake.types "a-b" "pk2"; @offlineInfo Fake.types "a" "pk1"]
  = size (dbm.cells (db Fake.ab)) /\
  forall name info, stored name info Fake.ab ->
    info ∈ [@offlineInfo Fake.types "a-b" "pk2";
            @offlineInfo Fake.types "a" "pk1"].
Proof.
  apply (List_covers_the_store (KT := Fake.types)).
  vm_compute. reflexivity.
Defined.

Lemma List_in_key_order_witness :
  Sorted dbm.key_le (dbm.Iterator (db Fake.ab)).
Proof.
  apply (List_in_key_order (KT := Fake.types) Fake.ab
           [@offlineInfo Fake.types "a-b" "pk2";
            @offlineInfo Fake.types "a" "pk1"]).
  vm_compute. reflexivity.
Defined.

Lemma fresh_mnemonic_restores_witness :
  exists info2 w2',
    CreateKey "erin" Fake.zoo24 "pw" Fake.alice = (Ret info2, w2') /\
    GetPubKey info2 = GetPubKey Fake.dave_info.
Proof.
  apply (fresh_mnemonic_restores (KT := Fake.types)
           "dave" "erin" "pw" Fake.zoo24 English "secp256k1"
           Fake.dave_info (Fake.world "") (snd Fake.fresh) Fake.alice).
  - reflexivity.
  - intros n ws H. injection H as <-. split; [reflexivity|].
    repeat constructor.
  - reflexivity.
Defined.

Lemma List_in_name_order_for_plain_names_witness :
  names_ascending [@offlineInfo Fake.types "alice" "pk2";
                   @offlineInfo Fake.types "bob" "pk"].
Proof.
  apply (List_in_name_order_for_plain_names (KT := Fake.types) _ Fake.two).
  - vm_compute. reflexivity.
  - intros key value info Hl Hr.
    change (dbm.cells (db Fake.two))
      with (<["alice.info" := "O|alice|pk2"]>
              (<["bob.info" := "O|bob|pk"]> (∅ : gmap string string))) in Hl.
    apply lookup_insert_Some in Hl as [[<- <-]|[_ Hl]];
      [|apply lookup_insert_Some in Hl as [[<- <-]|[_ Hl]];
        [|rewrite lookup_empty in Hl; discriminate Hl]];
      vm_compute in Hr; injection Hr as <-; split; reflexivity.
Defined.

Lemma CreateLedger_outcomes_witness :
  CreateLedger "nano" "44/118/0/0/0" "ed25519" (Fake.world "")
  = (Fail ErrUnsupportedSigningAlgo, Fake.world "") /\
  Get "nano" Fake.nano = (Ret Fake.nano_info, Fake.nano).
Proof.
  split.
  - apply (proj1 (CreateLedger_outcomes (KT := Fake.types)
                    "nano" "44/118/0/0/0" "ed25519" (Fake.world ""))).
    discriminate.
  - refine (proj2 (proj2 (proj2 (CreateLedger_outcomes (KT := Fake.types)
                           "nano" "44/118/0/0/0" "secp256k1" (Fake.world "")))
             "ledger:44/118/0/0/0" eq_refl eq_refl) _).
    split; [discriminate | reflexivity].
Defined.

End Runs.
